(** * LiTeFlow streaming metrics: [liteflow/metrics.py]

    A shallow embedding of [accuracy] and of the [StreamingMetric] adapter,
    together with the part of TensorFlow and of [liteflow.streaming] /
    [liteflow.utils] they run against.

    Layout:
    - [Float32], [Float64]: IEEE binary32 / binary64 numbers;
    - [Shape], [Tensors], [Kernels]: dense tensors and the element-wise
      kernels that [accuracy] calls;
    - the graph-building monad [M] over a [World];
    - [tf]: the TensorFlow operations used by the source;
    - [streaming], [utils]: the collaborators of the adapter;
    - [accuracy] and [StreamingMetric];
    - the properties. *)

From Stdlib Require Import ZArith SpecFloat.
From stdpp Require Import base option list gmap strings pretty.

Local Open Scope nat_scope.

(** ** Floating point numbers *)

(** [tf.float32]: IEEE-754 binary32, precision 24, maximal exponent 128. *)
Module Float32.
Definition t := spec_float.
Definition prec : Z := 24.
Definition emax : Z := 128.

Definition zero : t := S754_zero false.
Definition one : t := SFone prec emax.
Definition mul : t → t → t := SFmul prec emax.
Definition eqb : t → t → bool := SFeqb.
Definition ltb : t → t → bool := SFltb.
(** The most negative finite number, [-FLT_MAX]. *)
Definition lowest : t := SFopp (SFmax_float prec emax).
Definition of_Z (z : Z) : t := binary_normalize prec emax z 0 false.
Definition of_bool (c : bool) : t := if c then one else zero.

(** Truncation toward zero. TensorFlow leaves the conversion of
    not-a-number and of the infinities open; they are given 0 here. *)
Definition to_Z (f : t) : Z :=
  match f with
  | S754_finite s m e =>
      let a := if (0 <=? e)%Z then (Zpos m * 2 ^ e)%Z
               else (Zpos m / 2 ^ (- e))%Z in
      if s then (- a)%Z else a
  | _ => 0%Z
  end.

Definition is_zero (f : t) : bool :=
  match f with S754_zero _ => true | _ => false end.

(** The number with the given IEEE-754 bit pattern. *)
Definition of_bits (bits : Z) : t :=
  let s := Z.testbit bits 31 in
  let e := Z.land (Z.shiftr bits 23) 255 in
  let m := Z.land bits 8388607 in
  if (e =? 255)%Z then (if (m =? 0)%Z then S754_infinity s else S754_nan)
  else if (e =? 0)%Z then
    match m with Zpos p => S754_finite s p (-149) | _ => S754_zero s end
  else
    match (m + 8388608)%Z with
    | Zpos p => S754_finite s p (e - 150)
    | _ => S754_nan
    end.
End Float32.

(** The accumulator fields are [float64]: IEEE-754 binary64. *)
Module Float64.
Definition t := spec_float.
Definition prec : Z := 53.
Definition emax : Z := 1024.

Definition zero : t := S754_zero false.
Definition add : t → t → t := SFadd prec emax.
Definition div : t → t → t := SFdiv prec emax.
Definition of_Z (z : Z) : t := binary_normalize prec emax z 0 false.
Definition is_zero (f : t) : bool :=
  match f with S754_zero _ => true | _ => false end.
End Float64.

(** ** Shapes and row-major layout *)

Module Shape.
Definition t := list nat.

(** Number of elements of a tensor of the given shape. *)
Definition numel (s : t) : nat := foldr Nat.mul 1 s.

(** One dimension of a broadcast: equal sizes, or one of them is 1. *)
Definition broadcast_dim (x y : nat) : option nat :=
  if decide (x = y) then Some x
  else if decide (x = 1) then Some y
  else if decide (y = 1) then Some x
  else None.

(** Broadcasting aligns the shapes at their trailing dimension, so the
    work is done on the reversed shapes. *)
Fixpoint broadcast_rev (a b : t) : option t :=
  match a, b with
  | [], _ => Some b
  | _, [] => Some a
  | x :: a', y :: b' =>
      d ← broadcast_dim x y;
      ds ← broadcast_rev a' b';
      Some (d :: ds)
  end.

Definition broadcast (a b : t) : option t :=
  reverse <$> broadcast_rev (reverse a) (reverse b).

(** [src] left-padded with dimensions of size 1 to the rank of [out]. *)
Definition pad_to (src out : t) : t :=
  replicate (length out - length src) 1 ++ src.

(** [k] consecutive rows of [n] elements each. *)
Fixpoint chunks {A} (n k : nat) (l : list A) : list (list A) :=
  match k with
  | 0 => []
  | S k' => take n l :: chunks n k' (drop n l)
  end.

(** Row-major data of shape [src] laid out at shape [out]; [src] has the
    rank of [out] and each dimension either agrees or is 1, in which case
    its single row is repeated. *)
Fixpoint expand {A} (src out : t) (l : list A) : list A :=
  match src, out with
  | s :: src', o :: out' =>
      let rows := map (expand src' out') (chunks (numel src') s l) in
      if decide (s = o) then concat rows
      else concat (replicate o (concat (take 1 rows)))
  | _, _ => l
  end.

Definition broadcast_to {A} (src out : t) (l : list A) : list A :=
  expand (pad_to src out) out l.
End Shape.

(** ** Tensors *)

Inductive DType := DT_BOOL | DT_INT32 | DT_INT64 | DT_FLOAT32.

Global Instance DType_eq_dec : EqDecision DType.
Proof. solve_decision. Defined.

(** The elements of a tensor, in row-major order, typed by its dtype.
    Integers are kept as [Z] inside the range of their width. Every tensor
    has a shape that is known when the graph is built. A tensor can be
    declared although it has no elements to give: [BFails] is the content
    of a tensor of the given dtype whose evaluation fails, as that of an
    arg-max over an axis of size zero and of all that is computed from it. *)
Inductive Buffer :=
  | BBool (l : list bool)
  | BInt32 (l : list Z)
  | BInt64 (l : list Z)
  | BFloat32 (l : list Float32.t)
  | BFails (dt : DType).

Record Tensor := mkTensor { shape : Shape.t; buf : Buffer }.

Module Tensors.
Definition buf_dtype (b : Buffer) : DType :=
  match b with
  | BBool _ => DT_BOOL
  | BInt32 _ => DT_INT32
  | BInt64 _ => DT_INT64
  | BFloat32 _ => DT_FLOAT32
  | BFails dt => dt
  end.

Definition buf_length (b : Buffer) : nat :=
  match b with
  | BBool l => length l
  | BInt32 l | BInt64 l => length l
  | BFloat32 l => length l
  | BFails _ => 0
  end.

Definition dtype (x : Tensor) : DType := buf_dtype (buf x).

(** [x.get_shape().ndims] *)
Definition ndims (x : Tensor) : nat := length (shape x).

(** The buffer holds exactly the elements of the shape. *)
Definition wf (x : Tensor) : Prop :=
  buf_length (buf x) = Shape.numel (shape x).

(** Two's complement wrap-around to [w] bits. *)
Definition wrap (w : Z) (z : Z) : Z :=
  ((z + 2 ^ (w - 1)) mod 2 ^ w - 2 ^ (w - 1))%Z.
End Tensors.

(** ** Exceptions *)

(** Errors raised inside TensorFlow calls. All of them are raised while the
    graph is built, except [EmptyReduction], which is raised when a tensor
    is evaluated. *)
Inductive TFError :=
  | DTypeMismatch (a b : DType)
  | IncompatibleShapes (a b : Shape.t)
  | UnsupportedDType (d : DType)
  | InvalidAxis (rank : nat)
  | EmptyReduction
  | NoSuchTensor (r : nat).

(** [ValueError] is what the source raises itself, the ShapeError of the
    specification; what TensorFlow raises is kept apart from it. *)
Inductive Exception :=
  | ValueError (msg : string)
  | TensorFlowError (e : TFError).

Inductive Result (A : Type) :=
  | Ok (a : A)
  | Raise (e : Exception).
Arguments Ok {A} a.
Arguments Raise {A} e.

(** ** Kernels of the TensorFlow operations used by [accuracy] *)

Module Kernels.
Import Tensors.

Definition to_bools (b : Buffer) : list bool :=
  match b with
  | BBool l => l
  | BInt32 l | BInt64 l => map (λ z, negb (z =? 0)%Z) l
  | BFloat32 l => map (λ f, negb (Float32.is_zero f)) l
  | BFails _ => []
  end.

Definition to_ints (b : Buffer) : list Z :=
  match b with
  | BBool l => map Z.b2z l
  | BInt32 l | BInt64 l => l
  | BFloat32 l => map Float32.to_Z l
  | BFails _ => []
  end.

Definition to_floats (b : Buffer) : list Float32.t :=
  match b with
  | BBool l => map Float32.of_bool l
  | BInt32 l | BInt64 l => map Float32.of_Z l
  | BFloat32 l => l
  | BFails _ => []
  end.

Definition cast_buf (dt : DType) (b : Buffer) : Buffer :=
  match b with
  | BFails _ => BFails dt
  | _ =>
      match dt with
      | DT_BOOL => BBool (to_bools b)
      | DT_INT32 => BInt32 (map (wrap 32) (to_ints b))
      | DT_INT64 => BInt64 (map (wrap 64) (to_ints b))
      | DT_FLOAT32 => BFloat32 (to_floats b)
      end
  end.

(** Element-wise conversion; the shape is kept. *)
Definition cast (dt : DType) (x : Tensor) : Tensor :=
  mkTensor (shape x) (cast_buf dt (buf x)).

(** Both operands laid out at the broadcast shape [s], then combined
    position by position. *)
Definition zip_at {A B} (f : A → A → B) (sx sy s : Shape.t)
    (a b : list A) : list B :=
  zip_with f (Shape.broadcast_to sx s a) (Shape.broadcast_to sy s b).

(** The operands of a binary element-wise operation must have one dtype
    and shapes that broadcast. *)
Definition binary_shape (x y : Tensor) : Result Shape.t :=
  if decide (dtype x = dtype y) then
    match Shape.broadcast (shape x) (shape y) with
    | Some s => Ok s
    | None => Raise (TensorFlowError (IncompatibleShapes (shape x) (shape y)))
    end
  else Raise (TensorFlowError (DTypeMismatch (dtype x) (dtype y))).

(** [tf.equal]. What is computed from a tensor whose evaluation fails is
    declared all the same, and fails when it is evaluated. *)
Definition equal (x y : Tensor) : Result Tensor :=
  match binary_shape x y with
  | Raise e => Raise e
  | Ok s =>
      let at_s {A} (f : A → A → bool) := zip_at f (shape x) (shape y) s in
      match buf x, buf y with
      | BBool a, BBool b => Ok (mkTensor s (BBool (at_s Bool.eqb a b)))
      | BInt32 a, BInt32 b => Ok (mkTensor s (BBool (at_s Z.eqb a b)))
      | BInt64 a, BInt64 b => Ok (mkTensor s (BBool (at_s Z.eqb a b)))
      | BFloat32 a, BFloat32 b =>
          Ok (mkTensor s (BBool (at_s Float32.eqb a b)))
      | BFails _, _ | _, BFails _ => Ok (mkTensor s (BFails DT_BOOL))
      | _, _ => Raise (TensorFlowError (DTypeMismatch (dtype x) (dtype y)))
      end
  end.

(** [tf.multiply]; there is no product of booleans. *)
Definition multiply (x y : Tensor) : Result Tensor :=
  match binary_shape x y with
  | Raise e => Raise e
  | Ok s =>
      let at_s {A} (f : A → A → A) := zip_at f (shape x) (shape y) s in
      match buf x, buf y with
      | BInt32 a, BInt32 b =>
          Ok (mkTensor s (BInt32 (at_s (λ u v, wrap 32 (u * v)) a b)))
      | BInt64 a, BInt64 b =>
          Ok (mkTensor s (BInt64 (at_s (λ u v, wrap 64 (u * v)) a b)))
      | BFloat32 a, BFloat32 b =>
          Ok (mkTensor s (BFloat32 (at_s Float32.mul a b)))
      | BBool _, BBool _ => Raise (TensorFlowError (UnsupportedDType DT_BOOL))
      | BFails dt, _ | _, BFails dt =>
          if decide (dt = DT_BOOL)
          then Raise (TensorFlowError (UnsupportedDType DT_BOOL))
          else Ok (mkTensor s (BFails dt))
      | _, _ => Raise (TensorFlowError (DTypeMismatch (dtype x) (dtype y)))
      end
  end.

(** Position of the largest element of a row: the scan starts from
    position 0 with the lowest value of the type and moves only on a
    strictly greater element, so ties keep the first position. *)
Definition argmax_row {A} (gt : A → A → bool) (lowest : A)
    (row : list A) : Z :=
  let step (acc : Z * A * Z) (x : A) :=
    let '(best, top, i) := acc in
    if gt x top then (i, x, (i + 1)%Z) else (best, top, (i + 1)%Z) in
  (fold_left step row (0%Z, lowest, 0%Z)).1.1.

(** [tf.argmax(x, axis=-1)]: the trailing axis is reduced, the result
    has dtype [int64]. Booleans have no arg-max and a tensor of rank 0 has
    no axis: both are refused when the graph is built. An axis of size zero
    is not: the result is declared, and fails when it is evaluated. *)
Definition argmax_last (x : Tensor) : Result Tensor :=
  if decide (dtype x = DT_BOOL)
  then Raise (TensorFlowError (UnsupportedDType DT_BOOL))
  else
    match reverse (shape x) with
    | [] => Raise (TensorFlowError (InvalidAxis 0))
    | n :: outer_rev =>
        let outer := reverse outer_rev in
        let rows {A} (l : list A) := Shape.chunks n (Shape.numel outer) l in
        Ok (mkTensor outer
              (if decide (n = 0) then BFails DT_INT64
               else
                 match buf x with
                 | BInt32 l =>
                     BInt64 (map (argmax_row Z.gtb (- 2 ^ 31)%Z) (rows l))
                 | BInt64 l =>
                     BInt64 (map (argmax_row Z.gtb (- 2 ^ 63)%Z) (rows l))
                 | BFloat32 l =>
                     BInt64 (map (argmax_row (λ u v, Float32.ltb v u)
                                    Float32.lowest) (rows l))
                 | BBool _ | BFails _ => BFails DT_INT64
                 end))
    end.

(** The elements of a tensor when it is evaluated. *)
Definition evaluate (x : Tensor) : Result Buffer :=
  match buf x with
  | BFails _ => Raise (TensorFlowError EmptyReduction)
  | b => Ok b
  end.
End Kernels.

(** ** The world of a graph-building program *)

(** A tensor of the graph, with the variable scope it was created under. *)
Record Node := mkNode { node_scope : string; node_value : Tensor }.

(** The views and actions of an accumulator; a handle names one of them on
    one accumulator and is what gets published and evaluated later. *)
Inductive View :=
  | V_value | V_count | V_total
  | V_batch_value | V_batch_count | V_batch_total
  | V_update_op | V_reset_op.

Record Handle := mkHandle { h_avg : nat; h_view : View }.

Record AccumulatorState := mkState {
  running_sum : Float64.t;
  running_weight : Float64.t;
  batch_sum : Float64.t;
  batch_weight : Float64.t;
}.

(** What an accumulator was last asked to accumulate, and under which
    variable scope. *)
Record Declaration := mkDecl {
  decl_scope : string;
  decl_values : nat;
  decl_weights : nat;
}.

Record StreamingAverage := mkAverage {
  avg_state : AccumulatorState;
  avg_decl : option Declaration;
}.

(** Tensors and accumulators are objects: they are referred to by their
    position in [graph] and [averages], and neither list ever shrinks. *)
Record World := mkWorld {
  graph : list Node;
  var_scope : string;
  collections : gmap string (list Handle);
  averages : list StreamingAverage;
}.

Definition set_graph (g : list Node) (σ : World) : World :=
  mkWorld g (var_scope σ) (collections σ) (averages σ).
Definition set_var_scope (s : string) (σ : World) : World :=
  mkWorld (graph σ) s (collections σ) (averages σ).
Definition set_collections (c : gmap string (list Handle)) (σ : World) : World :=
  mkWorld (graph σ) (var_scope σ) c (averages σ).
Definition set_averages (a : list StreamingAverage) (σ : World) : World :=
  mkWorld (graph σ) (var_scope σ) (collections σ) a.

Definition empty_world : World := mkWorld [] "" ∅ [].

(** Computations change the world and may raise; what was changed before
    an exception stays changed. *)
Definition M (A : Type) : Type := World → Result A * World.

Definition ret {A} (a : A) : M A := λ σ, (Ok a, σ).
Definition raise {A} (e : Exception) : M A := λ σ, (Raise e, σ).
Definition bind {A B} (m : M A) (k : A → M B) : M B :=
  λ σ, match m σ with
       | (Ok a, σ') => k a σ'
       | (Raise e, σ') => (Raise e, σ')
       end.
Definition lift {A} (r : Result A) : M A := λ σ, (r, σ).

Declare Scope metric_scope.
Delimit Scope metric_scope with M.
Notation "x <- m ;; k" := (bind m (λ x, k))
  (at level 20, m at level 99, k at level 200, only parsing) : metric_scope.
Notation "' p <- m ;; k" := (bind m (λ x, match x with p => k end))
  (at level 20, p pattern, m at level 99, k at level 200, only parsing)
  : metric_scope.
Local Open Scope metric_scope.

(** Python's [x or d] on an optional string: [None] and the empty string
    are both false. *)
Definition str_or (x : option string) (d : string) : string :=
  match x with
  | Some s => if decide (s = EmptyString) then d else s
  | None => d
  end.

(** Truth value of an optional list of keys: [None] and [[]] are false. *)
Definition keys_given (keys : option (list string)) : bool :=
  match keys with
  | Some (_ :: _) => true
  | _ => false
  end.

(** ** TensorFlow *)

Record VariableScope := mkScope { scope_name : string }.

(** The tensor a reference stands for. *)
Definition tensor_at (σ : World) (r : nat) : option Tensor :=
  node_value <$> graph σ !! r.

(** The world with one more tensor, created under the current scope. *)
Definition push (x : Tensor) (σ : World) : World :=
  set_graph (graph σ ++ [mkNode (var_scope σ) x]) σ.

Module tf.
Definition fetch (r : nat) : M Tensor :=
  λ σ, match graph σ !! r with
       | Some n => (Ok (node_value n), σ)
       | None => (Raise (TensorFlowError (NoSuchTensor r)), σ)
       end.

(** A new tensor of the graph, named under the current scope. *)
Definition emit (x : Tensor) : M nat :=
  λ σ, (Ok (length (graph σ)), push x σ).

(** [x.get_shape().ndims] *)
Definition ndims (r : nat) : M nat :=
  x <- fetch r ;; ret (Tensors.ndims x).

(** The axis of [tf.argmax(x, axis=-1)], a constant of the graph. *)
Definition axis_last : Tensor := mkTensor [] (BInt32 [(-1)%Z]).

(** [tf.argmax(x, axis=-1)]. The dtype of [x] is checked first; then the
    axis becomes a constant of the graph, and the arg-max is added after
    it. *)
Definition argmax_last (r : nat) : M nat :=
  x <- fetch r ;;
  if decide (Tensors.dtype x = DT_BOOL)
  then raise (TensorFlowError (UnsupportedDType DT_BOOL))
  else
    _ <- emit axis_last ;;
    y <- lift (Kernels.argmax_last x) ;;
    emit y.

(** [tf.cast(x, dtype)]; a tensor that has the dtype already is returned
    as it is. *)
Definition cast (r : nat) (dt : DType) : M nat :=
  x <- fetch r ;;
  if decide (Tensors.dtype x = dt) then ret r
  else emit (Kernels.cast dt x).

Definition equal (a b : nat) : M nat :=
  x <- fetch a ;; y <- fetch b ;; z <- lift (Kernels.equal x y) ;; emit z.

Definition multiply (a b : nat) : M nat :=
  x <- fetch a ;; y <- fetch b ;; z <- lift (Kernels.multiply x y) ;; emit z.

Definition scope_join (outer name : string) : string :=
  if decide (outer = EmptyString) then name
  else (outer +:+ "/" +:+ name)%string.

(** [with tf.variable_scope(name) as scope: body]. The scope is left in
    every case, also when the body raises. *)
Definition variable_scope {A} (name : string)
    (body : VariableScope → M A) : M A :=
  λ σ, let outer := var_scope σ in
       let inner := scope_join outer name in
       let '(r, σ') := body (mkScope inner) (set_var_scope inner σ) in
       (r, set_var_scope outer σ').
End tf.

(** ** liteflow.streaming *)

Module streaming.
(** Modelled from the spec: [liteflow/streaming.py] is not part of the
    sources. The state of an [AverageAccumulator] is created zeroed
    with the accumulator. *)
Definition zero_state : AccumulatorState :=
  mkState Float64.zero Float64.zero Float64.zero Float64.zero.

(** Modelled from the spec: [StreamingAverage()], a new accumulator
    object that owns its state. *)
Definition StreamingAverage_new : M nat :=
  λ σ, (Ok (length (averages σ)),
        set_averages (averages σ ++ [mkAverage zero_state None]) σ).

(** Modelled from the spec: [StreamingAverage.compute(values, weights,
    scope)] declares the accumulation of one batch; declaring again
    replaces the declaration, the state is not touched. *)
Definition compute (self values weights : nat) (scope : VariableScope)
    : M unit :=
  λ σ, (Ok tt,
        set_averages
          (alter (λ a, mkAverage (avg_state a)
                         (Some (mkDecl (scope_name scope) values weights)))
                 self (averages σ)) σ).

(** Modelled from the spec: the read-only views and the two actions of
    an accumulator. *)
Definition value (self : nat) : Handle := mkHandle self V_value.
Definition count (self : nat) : Handle := mkHandle self V_count.
Definition total (self : nat) : Handle := mkHandle self V_total.
Definition batch_value (self : nat) : Handle := mkHandle self V_batch_value.
Definition batch_count (self : nat) : Handle := mkHandle self V_batch_count.
Definition batch_total (self : nat) : Handle := mkHandle self V_batch_total.
Definition update_op (self : nat) : Handle := mkHandle self V_update_op.
Definition reset_op (self : nat) : Handle := mkHandle self V_reset_op.

(** Modelled from the spec: a quotient that is 0 when the weight is 0. *)
Definition safe_div (s w : Float64.t) : Float64.t :=
  if Float64.is_zero w then Float64.zero else Float64.div s w.

(** Modelled from the spec: what each view reads from the state;
    [value] is the running mean, [total] the running sum, [count] the
    running weight. The two actions read nothing. *)
Definition read_view (st : AccumulatorState) (v : View) : option Float64.t :=
  match v with
  | V_value => Some (safe_div (running_sum st) (running_weight st))
  | V_count => Some (running_weight st)
  | V_total => Some (running_sum st)
  | V_batch_value => Some (safe_div (batch_sum st) (batch_weight st))
  | V_batch_count => Some (batch_weight st)
  | V_batch_total => Some (batch_sum st)
  | V_update_op | V_reset_op => None
  end.

(** Modelled from the spec: the update transition for a batch whose
    weighted sum is [s] and whose weight is [w]. *)
Definition update (s w : Float64.t) (st : AccumulatorState)
    : AccumulatorState :=
  mkState (Float64.add (running_sum st) s)
          (Float64.add (running_weight st) w) s w.

(** Modelled from the spec: the reset transition. *)
Definition reset (st : AccumulatorState) : AccumulatorState := zero_state.

(** Reading a handle in a world. *)
Definition read (σ : World) (h : Handle) : option Float64.t :=
  a ← averages σ !! h_avg h; read_view (avg_state a) (h_view h).

(** Running an action handle in a world; [s] and [w] are the weighted
    sum and the weight of the batch that is fed. Views run nothing. *)
Definition run (h : Handle) (s w : Float64.t) (σ : World) : World :=
  let on_state f :=
    set_averages
      (alter (λ a, mkAverage (f (avg_state a)) (avg_decl a))
             (h_avg h) (averages σ)) σ in
  match h_view h with
  | V_update_op => on_state (update s w)
  | V_reset_op => on_state reset
  | _ => σ
  end.
End streaming.

(** ** liteflow.utils *)

Module utils.
(** The content of a collection; one that was never written is empty. *)
Definition get_collection (c : gmap string (list Handle)) (key : string)
    : list Handle :=
  default [] (c !! key).

Definition add_to_collection (key : string) (h : Handle)
    (c : gmap string (list Handle)) : gmap string (list Handle) :=
  <[key := get_collection c key ++ [h]]> c.

(** Modelled from the spec: [liteflow/utils.py] is not part of the
    sources. [add_to_collections(keys, value)] appends the value to each
    of the named collections. *)
Definition add_to_collections (keys : list string) (h : Handle) : M unit :=
  λ σ, (Ok tt,
        set_collections
          (foldl (λ c key, add_to_collection key h c) (collections σ) keys)
          σ).
End utils.

(** ** liteflow.metrics *)

(** A scoring function takes the targets, the predictions and the weights
    and gives back the values and the weights to average. Being Python
    code it runs in the world. *)
Definition ScoringFunction : Type := nat → nat → nat → M (nat * nat).

Record StreamingMetric := mkMetric {
  _name : string;
  _func : ScoringFunction;
  _avg : nat;
}.

Module StreamingMetric.
Section Construction.
(** [StreamingComputation.__init__(name=name)] is in
    [liteflow/streaming.py], which is not part of the sources: the rule
    that gives a computation its name is a parameter. *)
Variable assigned_name : option string → string.

(** An accumulator object is true, so [average or StreamingAverage()]
    builds a new accumulator exactly when [average] is [None]. *)
Definition __init__ (func : ScoringFunction) (average : option nat)
    (name : option string) : M StreamingMetric :=
  avg <- match average with
         | Some a => ret a
         | None => streaming.StreamingAverage_new
         end ;;
  ret (mkMetric (assigned_name name) func avg).
End Construction.

Definition value (self : StreamingMetric) : Handle :=
  streaming.value (_avg self).

Definition count (self : StreamingMetric) : Handle :=
  streaming.count (_avg self).

Definition total (self : StreamingMetric) : Handle :=
  streaming.value (_avg self).

Definition batch_value (self : StreamingMetric) : Handle :=
  streaming.batch_value (_avg self).

Definition batch_count (self : StreamingMetric) : Handle :=
  streaming.batch_count (_avg self).

Definition batch_total (self : StreamingMetric) : Handle :=
  streaming.batch_total (_avg self).

Definition update_op (self : StreamingMetric) : Handle :=
  streaming.update_op (_avg self).

Definition reset_op (self : StreamingMetric) : Handle :=
  streaming.reset_op (_avg self).

(** The body of the [with] statement of [compute]. *)
Definition scoped_body (self : StreamingMetric)
    (targets predictions weights : nat) (scope : VariableScope) : M unit :=
  ' (values, weights) <- _func self targets predictions weights ;;
  streaming.compute (_avg self) values weights scope.

Definition compute (self : StreamingMetric)
    (targets predictions weights : nat)
    (metrics_collections updates_collections : option (list string))
    (scope : option string) : M unit :=
  _ <- tf.variable_scope (str_or scope (_name self))
         (scoped_body self targets predictions weights) ;;
  _ <- (if keys_given metrics_collections
        then utils.add_to_collections (default [] metrics_collections)
               (value self)
        else ret tt) ;;
  if keys_given updates_collections
  then utils.add_to_collections (default [] updates_collections)
         (update_op self)
  else ret tt.

Definition __call__ (self : StreamingMetric)
    (targets predictions weights : nat)
    (metrics_collections updates_collections : option (list string))
    (scope : option string) : M (Handle * Handle) :=
  _ <- compute self targets predictions weights
         metrics_collections updates_collections scope ;;
  ret (value self, update_op self).
End StreamingMetric.

(** The text of the [ValueError] of [accuracy], with both ranks printed in
    decimal. *)
Definition rank_message (prank trank : nat) : string :=
  ("Rank of `predictions` must be equal to rank of `label` "
   +:+ "or greater of 1, found " +:+ pretty prank
   +:+ " and " +:+ pretty trank +:+ " instead.")%string.

Definition accuracy (targets predictions weights : nat) : M (nat * nat) :=
  trank <- tf.ndims targets ;;
  prank <- tf.ndims predictions ;;
  predictions <-
    (if trank <? prank then
       let diff := prank - trank in
       if 1 <? diff then
         raise (ValueError (rank_message prank trank))
       else
         predictions <- tf.argmax_last predictions ;;
         tf.cast predictions DT_INT32
     else ret predictions) ;;
  is_equal <- tf.equal targets predictions ;;
  is_equal <- tf.cast is_equal DT_FLOAT32 ;;
  is_equal <- tf.multiply is_equal weights ;;
  ret (is_equal, weights).

(** ** Definitions used to state the properties *)

(** Lines 200 to 203 of [accuracy] on their own: the labels are compared
    with the targets, the matches become numbers and are weighted. *)
Definition compare_labels (targets labels weights : nat) : M (nat * nat) :=
  is_equal <- tf.equal targets labels ;;
  is_equal <- tf.cast is_equal DT_FLOAT32 ;;
  is_equal <- tf.multiply is_equal weights ;;
  ret (is_equal, weights).

(** Position by position equality of two buffers of one dtype, with no
    broadcasting. *)
Definition elementwise_equal (a b : Buffer) : option (list bool) :=
  match a, b with
  | BBool x, BBool y => Some (zip_with Bool.eqb x y)
  | BInt32 x, BInt32 y => Some (zip_with Z.eqb x y)
  | BInt64 x, BInt64 y => Some (zip_with Z.eqb x y)
  | BFloat32 x, BFloat32 y => Some (zip_with Float32.eqb x y)
  | _, _ => None
  end.

(** The matches as numbers, each multiplied by its weight. *)
Definition weighted_matches (matches : list bool) (ws : list Float32.t)
    : list Float32.t :=
  zip_with Float32.mul (map Float32.of_bool matches) ws.

(** What a caller can see of a call of a scoring function: the tensors that
    the returned references stand for, or the exception. *)
Definition observe (out : Result (nat * nat) * World)
    : Result (option Tensor * option Tensor) :=
  match out with
  | (Ok (values, weights), σ) => Ok (tensor_at σ values, tensor_at σ weights)
  | (Raise e, _) => Raise e
  end.

(** The tensors that [compare_labels] computes from the tensors of its
    arguments. *)
Definition compare_value (T L W : Tensor) : Result (Tensor * Tensor) :=
  match Kernels.equal T L with
  | Raise e => Raise e
  | Ok E =>
      match Kernels.multiply (Kernels.cast DT_FLOAT32 E) W with
      | Raise e => Raise e
      | Ok V => Ok (V, W)
      end
  end.

(** The tensors that [accuracy] computes from the tensors of its
    arguments. *)
Definition accuracy_value (T P W : Tensor) : Result (Tensor * Tensor) :=
  if Tensors.ndims T <? Tensors.ndims P then
    if 1 <? Tensors.ndims P - Tensors.ndims T then
      Raise (ValueError (rank_message (Tensors.ndims P) (Tensors.ndims T)))
    else
      match Kernels.argmax_last P with
      | Raise e => Raise e
      | Ok A => compare_value T (Kernels.cast DT_INT32 A) W
      end
  else compare_value T P W.

Definition seen (r : Result (Tensor * Tensor))
    : Result (option Tensor * option Tensor) :=
  match r with
  | Ok (V, W) => Ok (Some V, Some W)
  | Raise e => Raise e
  end.

(** How often a key is named in an optional list of keys. *)
Definition occurrences (key : string) (keys : option (list string)) : nat :=
  length (filter (λ k, k = key) (default [] keys)).

(** The collections after a handle was published under the given keys. *)
Definition publish (keys : option (list string)) (h : Handle)
    (c : gmap string (list Handle)) : gmap string (list Handle) :=
  if keys_given keys
  then foldl (λ c key, utils.add_to_collection key h c) c (default [] keys)
  else c.


(** [σ'] is [σ] with some more tensors and nothing else changed. *)
Inductive pushes (σ : World) : World → Prop :=
  | pushes_refl : pushes σ σ
  | pushes_step σ' x : pushes σ σ' → pushes σ (push x σ').

(** A world whose graph holds the given tensors, in order, and nothing
    else. *)
Definition world_of (ts : list Tensor) : World :=
  set_graph (map (mkNode "") ts) empty_world.

Definition f32_ones (n : nat) : Buffer := BFloat32 (replicate n Float32.one).

(** 0.1, 0.7 and 0.2 as binary32 numbers. *)
Definition f32_0_1 : Float32.t := Float32.of_bits 0x3DCCCCCD.
Definition f32_0_7 : Float32.t := Float32.of_bits 0x3F333333.
Definition f32_0_2 : Float32.t := Float32.of_bits 0x3E4CCCCD.

(** targets [[0,1,2]], predictions [[0,1,1]], weights [[1,1,1]]. *)
Definition labels_world : World :=
  world_of [mkTensor [3] (BInt32 [0; 1; 2]%Z);
            mkTensor [3] (BInt32 [0; 1; 1]%Z);
            mkTensor [3] (f32_ones 3)].

(** The same three tensors behind other references, after one more tensor
    and under a scope. *)
Definition labels_world_again : World :=
  set_var_scope "eval"
    (world_of [mkTensor [] (BBool [true]);
               mkTensor [3] (f32_ones 3);
               mkTensor [3] (BInt32 [0; 1; 1]%Z);
               mkTensor [3] (BInt32 [0; 1; 2]%Z)]).



(** targets [[1]], predictions of shape [[1,3,1]], weights [[1]]. *)
Definition rank_plus_two_world : World :=
  world_of [mkTensor [1] (BInt32 [1]%Z);
            mkTensor [1; 3; 1] (BFloat32 [f32_0_1; f32_0_7; f32_0_2]);
            mkTensor [1] (f32_ones 1)].

(** targets [[1]], predictions [[[0.1, 0.7, 0.2]]], weights [[1]]. *)
Definition distribution_world : World :=
  world_of [mkTensor [1] (BInt32 [1]%Z);
            mkTensor [1; 3] (BFloat32 [f32_0_1; f32_0_7; f32_0_2]);
            mkTensor [1] (f32_ones 1)].

(** The naming rule used in the examples: the name that was given, or the
    name of the class. *)
Definition class_name (name : option string) : string :=
  default "StreamingMetric"%string name.

(** A metric around [accuracy] whose accumulator is object 0. *)
Definition accuracy_metric : StreamingMetric :=
  mkMetric "accuracy" accuracy 0.

(** The world of the first example with one accumulator and one handle
    already in the collection ["metrics"]. *)
Definition metric_world : World :=
  set_collections {[ "metrics"%string := [mkHandle 7 V_value] ]}
    (set_averages [mkAverage streaming.zero_state None] labels_world).

(** An accumulator that has seen a weighted sum of 2 over a weight of 4. *)
Definition half_state : AccumulatorState :=
  mkState (Float64.of_Z 2) (Float64.of_Z 4) (Float64.of_Z 2) (Float64.of_Z 4).

Definition half_world : World :=
  set_averages [mkAverage half_state None] empty_world.

(** ** Definitions for the further properties *)

(** The labels that [accuracy] decodes from [k] rows of [n] class scores:
    the arg-max of each row, cast from [int64] to [int32]. *)
Definition decode_rows (n k : nat) (scores : list Float32.t) : list Z :=
  map (Tensors.wrap 32)
    (map (Kernels.argmax_row (λ u v, Float32.ltb v u) Float32.lowest)
       (Shape.chunks n k scores)).

(** How many tensors a successful call of [accuracy] adds: the comparison,
    its cast and the product, and before them the axis of the arg-max, the
    arg-max and its cast when the predictions are decoded. *)
Definition tensors_added (T P : Tensor) : nat :=
  if Tensors.ndims T <? Tensors.ndims P then 6 else 3.

(** targets [[1, 0]], class scores [[[0.1, 0.7, 0.2], [0.2, 0.1, 0.7]]],
    weights [[1, 0.2]]. *)
Definition batch_world : World :=
  world_of [mkTensor [2] (BInt32 [1; 0]%Z);
            mkTensor [2; 3] (BFloat32 [f32_0_1; f32_0_7; f32_0_2;
                                       f32_0_2; f32_0_1; f32_0_7]);
            mkTensor [2] (BFloat32 [Float32.one; f32_0_2])].

(** targets [[0,1,2]], predictions [[0,1,1]], the scalar weight 0.2. *)
Definition scalar_weight_world : World :=
  world_of [mkTensor [3] (BInt32 [0; 1; 2]%Z);
            mkTensor [3] (BInt32 [0; 1; 1]%Z);
            mkTensor [] (BFloat32 [f32_0_2])].

(** targets [[[0,1],[1,1]]], the scalar prediction 1, weights of ones. *)
Definition scalar_prediction_world : World :=
  world_of [mkTensor [2; 2] (BInt32 [0; 1; 1; 1]%Z);
            mkTensor [] (BInt32 [1]%Z);
            mkTensor [2; 2] (f32_ones 4)].

(** targets of dtype [int64] against class scores. *)
Definition int64_targets_world : World :=
  set_collections {[ "metrics"%string := [mkHandle 7 V_value] ]}
    (set_averages [mkAverage half_state None]
       (world_of [mkTensor [1] (BInt64 [1]%Z);
                  mkTensor [1; 3] (BFloat32 [f32_0_1; f32_0_7; f32_0_2]);
                  mkTensor [1] (f32_ones 1)])).

(** The value of a result that is known to be one, [d] otherwise. *)
Definition ok_value {A} (d : A) (r : Result A) : A :=
  match r with
  | Ok a => a
  | Raise _ => d
  end.

(** targets [[1, 0]], class scores of shape [[2, 0]]: no class at all. *)
Definition no_class_world : World :=
  world_of [mkTensor [2] (BInt32 [1; 0]%Z);
            mkTensor [2; 0] (BFloat32 []);
            mkTensor [2] (f32_ones 2)].
(** ** Row-major broadcasting at equal shapes *)

Section ShapeFacts.
Context {A : Type}.
Implicit Types (l : list A) (s : Shape.t).

Lemma chunks_concat n k l :
  length l = k * n → concat (Shape.chunks n k l) = l.
Proof.
  revert l. induction k as [|k IH]; intros l Hl; simpl in *.
  - symmetry. by apply nil_length_inv.
  - rewrite IH; [apply take_drop|].
    rewrite length_drop. lia.
Qed.

Lemma chunks_row_length n k l :
  length l = k * n → Forall (λ row, length row = n) (Shape.chunks n k l).
Proof.
  revert l. induction k as [|k IH]; intros l Hl; simpl in *.
  - constructor.
  - constructor.
    + rewrite length_take. lia.
    + apply IH. rewrite length_drop. lia.
Qed.

Lemma expand_same s l :
  length l = Shape.numel s → Shape.expand s s l = l.
Proof.
  revert l. induction s as [|d s IH]; intros l Hl; [done|].
  simpl in *. rewrite decide_True by done.
  assert (Hrows : map (Shape.expand s s) (Shape.chunks (Shape.numel s) d l)
                  = Shape.chunks (Shape.numel s) d l).
  { pose proof (chunks_row_length (Shape.numel s) d l Hl) as Hall.
    induction Hall as [|row rows Hrow _ IHrows]; simpl; [done|].
    by rewrite IH, IHrows. }
  rewrite Hrows. by apply chunks_concat.
Qed.

Lemma broadcast_to_same s l :
  length l = Shape.numel s → Shape.broadcast_to s s l = l.
Proof.
  intros Hl. unfold Shape.broadcast_to, Shape.pad_to.
  rewrite Nat.sub_diag. simpl. by apply expand_same.
Qed.
End ShapeFacts.

Lemma broadcast_dim_same x : Shape.broadcast_dim x x = Some x.
Proof. unfold Shape.broadcast_dim. by rewrite decide_True. Qed.

Lemma broadcast_rev_same s : Shape.broadcast_rev s s = Some s.
Proof.
  induction s as [|x s IH]; [done|].
  simpl. rewrite broadcast_dim_same. simpl. by rewrite IH.
Qed.

Lemma broadcast_same s : Shape.broadcast s s = Some s.
Proof.
  unfold Shape.broadcast. rewrite broadcast_rev_same. simpl.
  by rewrite reverse_involutive.
Qed.

Lemma zip_at_same {A B} (f : A → A → B) s (a b : list A) :
  length a = Shape.numel s → length b = Shape.numel s →
  Kernels.zip_at f s s s a b = zip_with f a b.
Proof.
  intros Ha Hb. unfold Kernels.zip_at.
  by rewrite !broadcast_to_same.
Qed.

(** ** The arg-max of a row of integers *)

Lemma argmax_scan_Z (row : list Z) (best top i : Z) :
  let step (acc : Z * Z * Z) (x : Z) :=
    let '(best, top, i) := acc in
    if (x >? top)%Z then (i, x, (i + 1)%Z) else (best, top, (i + 1)%Z) in
  let r := fold_left step row (best, top, i) in
  (Forall (λ x, (x ≤ top)%Z) row ∧ r.1.1 = best)
  ∨ ((i ≤ r.1.1)%Z
     ∧ (∃ m, row !! Z.to_nat (r.1.1 - i) = Some m
             ∧ (top < m)%Z
             ∧ Forall (λ x, (x ≤ m)%Z) row
             ∧ ∀ j y, j < Z.to_nat (r.1.1 - i) → row !! j = Some y →
                      (y < m)%Z)).
Proof.
  intros step. revert best top i.
  induction row as [|x row IH]; intros best top i; simpl.
  - left. by split.
  - destruct (Z.gtb_spec x top) as [Hgt|Hle].
    + right. destruct (IH i x (i + 1)%Z) as [[Hall Hbest]|(Hi & m & Hm & Hx & Hall & Hfirst)].
      * rewrite Hbest. split; [lia|]. exists x.
        rewrite Z.sub_diag. simpl. repeat split; try done.
        -- constructor; [lia|done].
        -- intros j y Hj. lia.
      * split; [lia|]. exists m.
        replace (Z.to_nat (_ - i)) with (S (Z.to_nat (
          (fold_left step row (i, x, (i + 1)%Z)).1.1 - (i + 1)))) by lia.
        simpl. repeat split; try done; [lia| |].
        -- constructor; [lia|done].
        -- intros [|j] y Hj Hy; simpl in Hy.
           ++ injection Hy as <-. lia.
           ++ apply (Hfirst j); [lia|done].
    + destruct (IH best top (i + 1)%Z) as [[Hall Hbest]|(Hi & m & Hm & Hx & Hall & Hfirst)].
      * left. split; [|done]. by constructor.
      * right. split; [lia|]. exists m.
        replace (Z.to_nat (_ - i)) with (S (Z.to_nat (
          (fold_left step row (best, top, (i + 1)%Z)).1.1 - (i + 1)))) by lia.
        simpl. repeat split; try done.
        -- constructor; [lia|done].
        -- intros [|j] y Hj Hy; simpl in Hy.
           ++ injection Hy as <-. lia.
           ++ apply (Hfirst j); [lia|done].
Qed.

(** On a row of integers that has an element above the lowest value,
    [argmax_row] gives the first position of the largest element. *)
Lemma argmax_row_Z_first_max (lowest : Z) (row : list Z) :
  Exists (λ x, (lowest < x)%Z) row →
  ∃ m, row !! Z.to_nat (Kernels.argmax_row Z.gtb lowest row) = Some m
       ∧ (0 ≤ Kernels.argmax_row Z.gtb lowest row)%Z
       ∧ Forall (λ x, (x ≤ m)%Z) row
       ∧ ∀ j y, j < Z.to_nat (Kernels.argmax_row Z.gtb lowest row) →
                row !! j = Some y → (y < m)%Z.
Proof.
  intros Hex. unfold Kernels.argmax_row.
  destruct (argmax_scan_Z row 0 lowest 0)
    as [[Hall _]|(Hi & m & Hm & _ & Hall & Hfirst)].
  - apply Exists_exists in Hex as (x & Hx & Hlow).
    rewrite Forall_forall in Hall. specialize (Hall x Hx). lia.
  - rewrite Z.sub_0_r in *. by exists m.
Qed.

(** ** Running the TensorFlow operations *)

Lemma bind_run {A B} (m : M A) (k : A → M B) σ :
  bind m k σ = match m σ with
               | (Ok a, σ') => k a σ'
               | (Raise e, σ') => (Raise e, σ')
               end.
Proof. reflexivity. Qed.

Lemma tensor_at_push_old σ x r T :
  tensor_at σ r = Some T → tensor_at (push x σ) r = Some T.
Proof.
  unfold tensor_at, push. simpl.
  destruct (graph σ !! r) as [n|] eqn:Hr; [|done].
  intros HT. by rewrite (lookup_app_l_Some _ _ _ _ Hr).
Qed.

Lemma tensor_at_push_new σ x :
  tensor_at (push x σ) (length (graph σ)) = Some x.
Proof.
  unfold tensor_at, push. simpl.
  by rewrite list_lookup_middle.
Qed.

Lemma tensor_at_push_at σ x r :
  r = length (graph σ) → tensor_at (push x σ) r = Some x.
Proof. intros ->. apply tensor_at_push_new. Qed.

Lemma length_graph_push σ x : length (graph (push x σ)) = S (length (graph σ)).
Proof. unfold push. simpl. rewrite length_app. simpl. lia. Qed.

Lemma fetch_at σ r T : tensor_at σ r = Some T → tf.fetch r σ = (Ok T, σ).
Proof.
  unfold tensor_at, tf.fetch.
  destruct (graph σ !! r); [|done]. simpl. by intros [= ->].
Qed.

Lemma ndims_at σ r T :
  tensor_at σ r = Some T → tf.ndims r σ = (Ok (Tensors.ndims T), σ).
Proof. intros HT. unfold tf.ndims. by rewrite bind_run, (fetch_at _ _ _ HT). Qed.

Lemma equal_at σ a b X Y :
  tensor_at σ a = Some X → tensor_at σ b = Some Y →
  tf.equal a b σ = match Kernels.equal X Y with
                   | Ok Z => (Ok (length (graph σ)), push Z σ)
                   | Raise e => (Raise e, σ)
                   end.
Proof.
  intros Ha Hb. unfold tf.equal.
  rewrite bind_run, (fetch_at _ _ _ Ha), bind_run, (fetch_at _ _ _ Hb), bind_run.
  unfold lift. by destruct (Kernels.equal X Y).
Qed.

Lemma multiply_at σ a b X Y :
  tensor_at σ a = Some X → tensor_at σ b = Some Y →
  tf.multiply a b σ = match Kernels.multiply X Y with
                      | Ok Z => (Ok (length (graph σ)), push Z σ)
                      | Raise e => (Raise e, σ)
                      end.
Proof.
  intros Ha Hb. unfold tf.multiply.
  rewrite bind_run, (fetch_at _ _ _ Ha), bind_run, (fetch_at _ _ _ Hb), bind_run.
  unfold lift. by destruct (Kernels.multiply X Y).
Qed.

Lemma argmax_last_at σ r X :
  tensor_at σ r = Some X → shape X ≠ [] →
  tf.argmax_last r σ
  = match Kernels.argmax_last X with
    | Ok Z => (Ok (length (graph σ) + 1), push Z (push tf.axis_last σ))
    | Raise e => (Raise e, σ)
    end.
Proof.
  intros Hr Hrank. unfold tf.argmax_last, Kernels.argmax_last.
  rewrite bind_run, (fetch_at _ _ _ Hr).
  case_decide; [done|].
  destruct (reverse (shape X)) as [|n outer] eqn:Hshape.
  { apply (f_equal reverse) in Hshape.
    by rewrite reverse_involutive in Hshape. }
  rewrite bind_run. unfold tf.emit at 1. rewrite bind_run. unfold lift.
  unfold tf.emit. rewrite length_graph_push. by rewrite Nat.add_1_r.
Qed.

Lemma cast_at σ r X dt :
  tensor_at σ r = Some X → Tensors.dtype X ≠ dt →
  tf.cast r dt σ = (Ok (length (graph σ)), push (Kernels.cast dt X) σ).
Proof.
  intros Hr Hdt. unfold tf.cast.
  rewrite bind_run, (fetch_at _ _ _ Hr).
  by rewrite decide_False.
Qed.

Lemma equal_dtype X Y Z : Kernels.equal X Y = Ok Z → Tensors.dtype Z = DT_BOOL.
Proof.
  unfold Kernels.equal. destruct (Kernels.binary_shape X Y); [|done].
  destruct (buf X), (buf Y); try done; by intros [= <-].
Qed.

Lemma argmax_last_dtype X Z :
  Kernels.argmax_last X = Ok Z → Tensors.dtype Z = DT_INT64.
Proof.
  unfold Kernels.argmax_last. case_decide; [done|].
  destruct (reverse (shape X)); [done|].
  intros [= <-]. unfold Tensors.dtype. simpl.
  case_decide; [done|]. by destruct (buf X).
Qed.

Lemma compare_labels_run σ t l w T L W :
  tensor_at σ t = Some T → tensor_at σ l = Some L → tensor_at σ w = Some W →
  compare_labels t l w σ =
    match Kernels.equal T L with
    | Raise e => (Raise e, σ)
    | Ok E =>
        let σ2 := push (Kernels.cast DT_FLOAT32 E) (push E σ) in
        match Kernels.multiply (Kernels.cast DT_FLOAT32 E) W with
        | Raise e => (Raise e, σ2)
        | Ok V => (Ok (length (graph σ) + 2, w), push V σ2)
        end
    end.
Proof.
  intros Ht Hl Hw. unfold compare_labels.
  rewrite bind_run, (equal_at _ _ _ _ _ Ht Hl).
  destruct (Kernels.equal T L) as [E|e] eqn:HE; [|done].
  rewrite bind_run, (cast_at _ _ E);
    [|apply tensor_at_push_new|by rewrite (equal_dtype _ _ _ HE)].
  rewrite bind_run.
  rewrite (multiply_at _ _ _ (Kernels.cast DT_FLOAT32 E) W).
  - rewrite !length_graph_push.
    destruct (Kernels.multiply _ W); [|done].
    unfold ret. do 3 f_equal. lia.
  - apply tensor_at_push_new.
  - by do 2 apply tensor_at_push_old.
Qed.

Lemma accuracy_run σ t p w T P W :
  tensor_at σ t = Some T → tensor_at σ p = Some P → tensor_at σ w = Some W →
  accuracy t p w σ =
    if Tensors.ndims T <? Tensors.ndims P then
      if 1 <? Tensors.ndims P - Tensors.ndims T then
        (Raise (ValueError (rank_message (Tensors.ndims P) (Tensors.ndims T))), σ)
      else
        match Kernels.argmax_last P with
        | Raise e => (Raise e, σ)
        | Ok A =>
            compare_labels t (length (graph σ) + 2) w
              (push (Kernels.cast DT_INT32 A)
                 (push A (push tf.axis_last σ)))
        end
    else compare_labels t p w σ.
Proof.
  intros Ht Hp Hw. unfold accuracy.
  rewrite bind_run, (ndims_at _ _ _ Ht), bind_run, (ndims_at _ _ _ Hp), bind_run.
  destruct (Nat.ltb_spec (Tensors.ndims T) (Tensors.ndims P)) as [Hlt|Hle];
    [|done].
  destruct (1 <? Tensors.ndims P - Tensors.ndims T); [done|].
  assert (Hrank : shape P ≠ []).
  { intros Hnil. unfold Tensors.ndims in Hlt. rewrite Hnil in Hlt.
    simpl in Hlt. lia. }
  rewrite bind_run, (argmax_last_at _ _ _ Hp Hrank).
  destruct (Kernels.argmax_last P) as [A|e] eqn:HA; [|done].
  rewrite (cast_at _ _ A);
    [|apply tensor_at_push_at; rewrite length_graph_push; lia
     |by rewrite (argmax_last_dtype _ _ HA)].
  rewrite !length_graph_push.
  by replace (S (S (length (graph σ)))) with (length (graph σ) + 2) by lia.
Qed.

(** ** The kernels at equal shapes *)

Lemma elementwise_equal_dtype a b matches :
  elementwise_equal a b = Some matches →
  Tensors.buf_dtype a = Tensors.buf_dtype b.
Proof. by destruct a, b. Qed.

Lemma elementwise_equal_length a b matches n :
  elementwise_equal a b = Some matches →
  Tensors.buf_length a = n → Tensors.buf_length b = n →
  length matches = n.
Proof.
  destruct a, b; try done; simpl; intros [= <-] Ha Hb;
    rewrite length_zip_with; lia.
Qed.

Lemma kernel_equal_same_shape T P matches :
  shape P = shape T → Tensors.wf T → Tensors.wf P →
  elementwise_equal (buf T) (buf P) = Some matches →
  Kernels.equal T P = Ok (mkTensor (shape T) (BBool matches)).
Proof.
  intros Hs HT HP Heq.
  unfold Kernels.equal, Kernels.binary_shape, Tensors.dtype.
  rewrite decide_True by eauto using elementwise_equal_dtype.
  rewrite Hs, broadcast_same.
  unfold Tensors.wf in *. rewrite Hs in HP.
  destruct (buf T), (buf P); try done; simpl in *;
    injection Heq as <-; by rewrite zip_at_same.
Qed.

Lemma kernel_multiply_same_shape s matches ws W :
  shape W = s → buf W = BFloat32 ws →
  length matches = Shape.numel s → Tensors.wf W →
  Kernels.multiply (Kernels.cast DT_FLOAT32 (mkTensor s (BBool matches))) W
  = Ok (mkTensor s (BFloat32 (weighted_matches matches ws))).
Proof.
  intros Hs Hbuf Hlen HW.
  unfold Kernels.multiply, Kernels.binary_shape, Kernels.cast, Tensors.dtype.
  unfold Tensors.wf in HW. rewrite Hbuf in *. simpl in *.
  rewrite Hs in *. rewrite broadcast_same.
  rewrite zip_at_same; [done| |done].
  by rewrite length_map.
Qed.

(** C1, with its example put right. For targets, predictions and weights
    of one shape (so of one rank), targets and predictions of one dtype and
    weights of dtype [float32], [accuracy] returns a pair: the first
    component is the tensor of the position by position equality of targets
    and predictions, as floating point numbers, each multiplied by its
    weight; the second component is the weights argument itself, which
    still stands for the same tensor. At targets [[0,1,2]], predictions
    [[0,1,1]] and weights [[1,1,1]] the values are [[1,1,0]]. *)
Theorem accuracy_equal_shape_scores σ t p w T P W matches ws :
  tensor_at σ t = Some T → tensor_at σ p = Some P → tensor_at σ w = Some W →
  Tensors.wf T → Tensors.wf P → Tensors.wf W →
  shape P = shape T → shape W = shape T →
  elementwise_equal (buf T) (buf P) = Some matches →
  buf W = BFloat32 ws →
  ∃ s σ',
    accuracy t p w σ = (Ok (s, w), σ')
    ∧ tensor_at σ' s
      = Some (mkTensor (shape T) (BFloat32 (weighted_matches matches ws)))
    ∧ tensor_at σ' w = Some W.
Proof.
  intros Ht Hp Hw HT HP HW HsP HsW Heq Hbuf.
  rewrite (accuracy_run _ _ _ _ _ _ _ Ht Hp Hw).
  unfold Tensors.ndims. rewrite HsP, Nat.ltb_irrefl.
  rewrite (compare_labels_run _ _ _ _ _ _ _ Ht Hp Hw).
  rewrite (kernel_equal_same_shape _ _ _ HsP HT HP Heq). simpl.
  assert (Hlen : length matches = Shape.numel (shape T)).
  { apply (elementwise_equal_length _ _ _ _ Heq HT).
    unfold Tensors.wf in HP. by rewrite HP, HsP. }
  rewrite (kernel_multiply_same_shape _ _ ws W HsW Hbuf Hlen HW).
  eexists _, _. split; [done|]. split.
  - apply tensor_at_push_at. rewrite !length_graph_push. lia.
  - by do 3 apply tensor_at_push_old.
Qed.

Lemma accuracy_equal_shape_scores_witness :
  ∃ s σ',
    accuracy 0 1 2 labels_world = (Ok (s, 2), σ')
    ∧ tensor_at σ' s
      = Some (mkTensor [3]
                (BFloat32 [Float32.one; Float32.one; Float32.zero]))
    ∧ tensor_at σ' 2 = Some (mkTensor [3] (f32_ones 3)).
Proof.
  apply (accuracy_equal_shape_scores labels_world 0 1 2
           (mkTensor [3] (BInt32 [0; 1; 2]%Z))
           (mkTensor [3] (BInt32 [0; 1; 1]%Z))
           (mkTensor [3] (f32_ones 3))
           [true; true; false]
           [Float32.one; Float32.one; Float32.one]); reflexivity.
Defined.

(** The values that the example of C1 names, [[1,0,0]], are not the ones
    [accuracy] gives at targets [[0,1,2]], predictions [[0,1,1]] and
    weights [[1,1,1]]: the second label matches as well. *)
Lemma accuracy_example_not_1_0_0 :
  ¬ ∃ s σ',
      accuracy 0 1 2 labels_world = (Ok (s, 2), σ')
      ∧ tensor_at σ' s
        = Some (mkTensor [3]
                  (BFloat32 [Float32.one; Float32.zero; Float32.zero])).
Proof.
  intros (s & σ' & Hrun & Hs).
  vm_compute in Hrun. injection Hrun as <- <-.
  vm_compute in Hs. discriminate Hs.
Qed.

(** ** The rank check *)

Lemma set_var_scope_restore σ s :
  set_var_scope (var_scope σ) (set_var_scope s σ) = σ.
Proof. by destruct σ. Qed.

Lemma accuracy_rank_raise σ t p w T P :
  tensor_at σ t = Some T → tensor_at σ p = Some P →
  Tensors.ndims T + 1 < Tensors.ndims P →
  accuracy t p w σ
  = (Raise (ValueError (rank_message (Tensors.ndims P) (Tensors.ndims T))), σ).
Proof.
  intros Ht Hp Hrank. unfold accuracy.
  rewrite bind_run, (ndims_at _ _ _ Ht), bind_run, (ndims_at _ _ _ Hp), bind_run.
  destruct (Nat.ltb_spec (Tensors.ndims T) (Tensors.ndims P)); [|lia].
  destruct (Nat.ltb_spec 1 (Tensors.ndims P - Tensors.ndims T)); [done|lia].
Qed.

(** C2. When the rank of the predictions is more than one above the rank of
    the targets, [accuracy] raises its [ValueError] (the ShapeError of the
    specification); the message has the rank of the predictions and the
    rank of the targets in it, in decimal; the world is left as it was, and
    a metric that wraps [accuracy] fails in the same way from [compute] and
    from a call, with every accumulator, collection and tensor as before. *)
Theorem accuracy_rank_violation σ t p w T P :
  tensor_at σ t = Some T → tensor_at σ p = Some P →
  Tensors.ndims T + 1 < Tensors.ndims P →
  ∃ msg,
    accuracy t p w σ = (Raise (ValueError msg), σ)
    ∧ (∃ before between after,
         msg = (before +:+ pretty (Tensors.ndims P) +:+ between
                +:+ pretty (Tensors.ndims T) +:+ after)%string)
    ∧ (∀ self mc uc scope,
         _func self = accuracy →
         StreamingMetric.compute self t p w mc uc scope σ
         = (Raise (ValueError msg), σ)
         ∧ StreamingMetric.__call__ self t p w mc uc scope σ
           = (Raise (ValueError msg), σ)).
Proof.
  intros Ht Hp Hrank.
  exists (rank_message (Tensors.ndims P) (Tensors.ndims T)).
  split; [by apply accuracy_rank_raise with (w := w)|]. split.
  - exists "Rank of `predictions` must be equal to rank of `label` or greater of 1, found "%string,
      " and "%string, " instead."%string.
    reflexivity.
  - intros self mc uc scope Hfunc.
    assert (Hcompute : StreamingMetric.compute self t p w mc uc scope σ
      = (Raise (ValueError (rank_message (Tensors.ndims P) (Tensors.ndims T))), σ)).
    { unfold StreamingMetric.compute. rewrite bind_run.
      unfold tf.variable_scope, StreamingMetric.scoped_body.
      rewrite bind_run, Hfunc.
      rewrite (accuracy_rank_raise _ t p w T P) by done.
      by rewrite set_var_scope_restore. }
    split; [done|].
    unfold StreamingMetric.__call__. by rewrite bind_run, Hcompute.
Qed.

Lemma accuracy_rank_violation_witness :
  ∃ msg,
    accuracy 0 1 2 rank_plus_two_world
    = (Raise (ValueError msg), rank_plus_two_world)
    ∧ (∃ before between after,
         msg = (before +:+ "3" +:+ between +:+ "1" +:+ after)%string)
    ∧ (∀ self mc uc scope,
         _func self = accuracy →
         StreamingMetric.compute self 0 1 2 mc uc scope rank_plus_two_world
         = (Raise (ValueError msg), rank_plus_two_world)
         ∧ StreamingMetric.__call__ self 0 1 2 mc uc scope rank_plus_two_world
           = (Raise (ValueError msg), rank_plus_two_world)).
Proof.
  apply (accuracy_rank_violation rank_plus_two_world 0 1 2
           (mkTensor [1] (BInt32 [1]%Z))
           (mkTensor [1; 3; 1] (BFloat32 [f32_0_1; f32_0_7; f32_0_2])));
    [reflexivity | reflexivity | vm_compute; lia].
Defined.

(** ** Ranks that pass the check *)






(** What a caller sees of [compare_labels] and of [accuracy] is a function
    of the tensors of the arguments. *)
Lemma observe_compare_labels σ t l w T L W :
  tensor_at σ t = Some T → tensor_at σ l = Some L → tensor_at σ w = Some W →
  observe (compare_labels t l w σ) = seen (compare_value T L W).
Proof.
  intros Ht Hl Hw. rewrite (compare_labels_run _ _ _ _ _ _ _ Ht Hl Hw).
  unfold compare_value.
  destruct (Kernels.equal T L) as [E|e]; [|done]. simpl.
  destruct (Kernels.multiply _ W) as [V|e]; [|done]. simpl.
  f_equal. f_equal.
  - apply tensor_at_push_at. rewrite !length_graph_push. lia.
  - by do 3 apply tensor_at_push_old.
Qed.

Lemma observe_accuracy σ t p w T P W :
  tensor_at σ t = Some T → tensor_at σ p = Some P → tensor_at σ w = Some W →
  observe (accuracy t p w σ) = seen (accuracy_value T P W).
Proof.
  intros Ht Hp Hw. rewrite (accuracy_run _ _ _ _ _ _ _ Ht Hp Hw).
  unfold accuracy_value.
  destruct (Tensors.ndims T <? Tensors.ndims P);
    [|by apply observe_compare_labels].
  destruct (1 <? Tensors.ndims P - Tensors.ndims T); [done|].
  destruct (Kernels.argmax_last P) as [A|e]; [|done].
  apply observe_compare_labels.
  - by do 3 apply tensor_at_push_old.
  - apply tensor_at_push_at. rewrite !length_graph_push. lia.
  - by do 3 apply tensor_at_push_old.
Qed.






(** ** Decoding of the predictions *)

Lemma cast_dtype dt X : Tensors.dtype (Kernels.cast dt X) = dt.
Proof.
  unfold Tensors.dtype, Kernels.cast, Kernels.cast_buf. simpl.
  by destruct (buf X), dt.
Qed.

(** C3, as amended. With the rank of the predictions one above the rank of
    the targets, [accuracy] takes the arg-max of the predictions over their
    trailing axis, casts the labels it finds to [int32], whatever the dtype
    of the targets is, and compares these labels with the targets. When the
    predictions have no arg-max, as booleans have none, it raises and has
    built nothing. With equal ranks no arg-max is taken and the predictions
    are compared as they are. At targets [[1]] and predictions
    [[[0.1, 0.7, 0.2]]] the label is 1 and the score is [[1]]. *)
Theorem accuracy_decodes_by_argmax σ t p w T P W :
  tensor_at σ t = Some T → tensor_at σ p = Some P → tensor_at σ w = Some W →
  (Tensors.ndims P = Tensors.ndims T + 1 →
   match Kernels.argmax_last P with
   | Raise e => accuracy t p w σ = (Raise e, σ)
   | Ok A =>
       let labels := Kernels.cast DT_INT32 A in
       let σ' := push labels (push A (push tf.axis_last σ)) in
       let l := length (graph σ) + 2 in
       Tensors.dtype labels = DT_INT32
       ∧ tensor_at σ' l = Some labels
       ∧ accuracy t p w σ = compare_labels t l w σ'
       ∧ observe (accuracy t p w σ) = seen (compare_value T labels W)
   end)
  ∧ (Tensors.ndims P = Tensors.ndims T →
     accuracy t p w σ = compare_labels t p w σ
     ∧ observe (accuracy t p w σ) = seen (compare_value T P W)).
Proof.
  intros Ht Hp Hw. split; intros Hrank.
  - pose proof (accuracy_run _ _ _ _ _ _ _ Ht Hp Hw) as Hrun.
    pose proof (observe_accuracy _ _ _ _ _ _ _ Ht Hp Hw) as Hobs.
    unfold accuracy_value in Hobs.
    destruct (Nat.ltb_spec (Tensors.ndims T) (Tensors.ndims P)); [|lia].
    destruct (Nat.ltb_spec 1 (Tensors.ndims P - Tensors.ndims T)); [lia|].
    destruct (Kernels.argmax_last P) as [A|e]; [|done].
    simpl. split; [apply cast_dtype|]. split; [|done].
    apply tensor_at_push_at. rewrite !length_graph_push. lia.
  - pose proof (accuracy_run _ _ _ _ _ _ _ Ht Hp Hw) as Hrun.
    pose proof (observe_accuracy _ _ _ _ _ _ _ Ht Hp Hw) as Hobs.
    unfold accuracy_value in Hobs.
    destruct (Nat.ltb_spec (Tensors.ndims T) (Tensors.ndims P)); [lia|done].
Qed.

Lemma accuracy_decodes_by_argmax_witness :
  Kernels.argmax_last (mkTensor [1; 3] (BFloat32 [f32_0_1; f32_0_7; f32_0_2]))
  = Ok (mkTensor [1] (BInt64 [1%Z]))
  ∧ observe (accuracy 0 1 2 distribution_world)
    = Ok (Some (mkTensor [1] (BFloat32 [Float32.one])),
          Some (mkTensor [1] (f32_ones 1)))
  ∧ tensor_at (accuracy 0 1 2 distribution_world).2 5
    = Some (mkTensor [1] (BInt32 [1%Z])).
Proof.
  split; [reflexivity|].
  pose proof (proj1 (accuracy_decodes_by_argmax distribution_world 0 1 2
           (mkTensor [1] (BInt32 [1]%Z))
           (mkTensor [1; 3] (BFloat32 [f32_0_1; f32_0_7; f32_0_2]))
           (mkTensor [1] (f32_ones 1))
           eq_refl eq_refl eq_refl) eq_refl) as H.
  change (Kernels.argmax_last
            (mkTensor [1; 3] (BFloat32 [f32_0_1; f32_0_7; f32_0_2])))
    with (@Ok Tensor (mkTensor [1] (BInt64 [1%Z]))) in H.
  destruct H as (_ & _ & _ & Hobs).
  split; [exact Hobs|]. reflexivity.
Defined.

(** C3 as it is stated does not hold: the labels are not cast to the integer
    type of the targets. With targets of dtype [int64] against class
    scores, the decoded labels are cast to [int32] all the same, and the
    comparison with the targets is refused for its two dtypes. *)
Lemma accuracy_int64_targets_labels_int32 :
  tensor_at int64_targets_world 0 = Some (mkTensor [1] (BInt64 [1%Z]))
  ∧ tensor_at int64_targets_world 1
    = Some (mkTensor [1; 3] (BFloat32 [f32_0_1; f32_0_7; f32_0_2]))
  ∧ tensor_at (accuracy 0 1 2 int64_targets_world).2 5
    = Some (mkTensor [1] (BInt32 [1%Z]))
  ∧ Tensors.dtype (mkTensor [1] (BInt32 [1%Z]))
    ≠ Tensors.dtype (mkTensor [1] (BInt64 [1%Z]))
  ∧ (accuracy 0 1 2 int64_targets_world).1
    = Raise (TensorFlowError (DTypeMismatch DT_INT64 DT_INT32)).
Proof. repeat split. by vm_compute. Qed.

(** With no class at all the graph is built all the same: [accuracy]
    returns, and the values it returns fail when they are evaluated. *)
Lemma accuracy_no_class_example :
  (accuracy 0 1 2 no_class_world).1 = Ok (8, 2)
  ∧ tensor_at (accuracy 0 1 2 no_class_world).2 8
    = Some (mkTensor [2] (BFails DT_FLOAT32))
  ∧ Kernels.evaluate (mkTensor [2] (BFails DT_FLOAT32))
    = Raise (TensorFlowError EmptyReduction).
Proof. repeat split. Qed.

(** ** [accuracy] touches nothing *)

Lemma pushes_trans σ1 σ2 σ3 : pushes σ1 σ2 → pushes σ2 σ3 → pushes σ1 σ3.
Proof. intros H12 H23. induction H23; [done|]. by constructor. Qed.

Lemma pushes_frame σ σ' :
  pushes σ σ' →
  (∀ r X, tensor_at σ r = Some X → tensor_at σ' r = Some X)
  ∧ var_scope σ' = var_scope σ
  ∧ collections σ' = collections σ
  ∧ averages σ' = averages σ.
Proof.
  induction 1 as [|σ' x _ (IHt & IHs & IHc & IHa)]; [done|].
  split; [|done]. intros r X Hr. by apply tensor_at_push_old, IHt.
Qed.

Lemma pushes_graph σ σ' :
  pushes σ σ' →
  ∃ new, graph σ' = graph σ ++ (mkNode (var_scope σ) <$> new).
Proof.
  induction 1 as [|σ' x Hpushes [new Hnew]].
  - exists []. by rewrite app_nil_r.
  - exists (new ++ [x]). unfold push. simpl.
    destruct (pushes_frame _ _ Hpushes) as (_ & -> & _).
    by rewrite Hnew, fmap_app, app_assoc.
Qed.

Lemma compare_labels_pushes σ t l w T L W :
  tensor_at σ t = Some T → tensor_at σ l = Some L → tensor_at σ w = Some W →
  pushes σ (compare_labels t l w σ).2.
Proof.
  intros Ht Hl Hw. rewrite (compare_labels_run _ _ _ _ _ _ _ Ht Hl Hw).
  destruct (Kernels.equal T L) as [E|e]; [|constructor]. simpl.
  destruct (Kernels.multiply _ W); simpl; repeat constructor.
Qed.

Lemma accuracy_pushes σ t p w T P W :
  tensor_at σ t = Some T → tensor_at σ p = Some P → tensor_at σ w = Some W →
  pushes σ (accuracy t p w σ).2.
Proof.
  intros Ht Hp Hw. rewrite (accuracy_run _ _ _ _ _ _ _ Ht Hp Hw).
  destruct (Tensors.ndims T <? Tensors.ndims P);
    [|by eapply compare_labels_pushes].
  destruct (1 <? Tensors.ndims P - Tensors.ndims T); [constructor|].
  destruct (Kernels.argmax_last P) as [A|e]; [|constructor].
  apply pushes_trans
    with (push (Kernels.cast DT_INT32 A) (push A (push tf.axis_last σ)));
    [repeat constructor|].
  eapply compare_labels_pushes.
  - by do 3 apply tensor_at_push_old.
  - apply tensor_at_push_at. rewrite !length_graph_push. lia.
  - by do 3 apply tensor_at_push_old.
Qed.

(** C8. [accuracy] is deterministic and free of side effects. Two runs, in
    any two worlds, on arguments that stand for equal tensors give equal
    tensors back, or raise the same exception. A run changes no tensor that
    was there before, its arguments included, and leaves the current scope,
    the collections and the accumulators as they were: all it does to the
    world is to add the tensors it computes. *)
Theorem accuracy_deterministic_and_pure σ1 σ2 t1 p1 w1 t2 p2 w2 T P W :
  tensor_at σ1 t1 = Some T → tensor_at σ1 p1 = Some P →
  tensor_at σ1 w1 = Some W →
  tensor_at σ2 t2 = Some T → tensor_at σ2 p2 = Some P →
  tensor_at σ2 w2 = Some W →
  observe (accuracy t1 p1 w1 σ1) = observe (accuracy t2 p2 w2 σ2)
  ∧ (∀ r X, tensor_at σ1 r = Some X →
            tensor_at (accuracy t1 p1 w1 σ1).2 r = Some X)
  ∧ var_scope (accuracy t1 p1 w1 σ1).2 = var_scope σ1
  ∧ collections (accuracy t1 p1 w1 σ1).2 = collections σ1
  ∧ averages (accuracy t1 p1 w1 σ1).2 = averages σ1.
Proof.
  intros Ht1 Hp1 Hw1 Ht2 Hp2 Hw2. split.
  - rewrite (observe_accuracy _ _ _ _ _ _ _ Ht1 Hp1 Hw1).
    by rewrite (observe_accuracy _ _ _ _ _ _ _ Ht2 Hp2 Hw2).
  - apply pushes_frame. by eapply accuracy_pushes.
Qed.

Lemma accuracy_deterministic_and_pure_witness :
  observe (accuracy 0 1 2 labels_world)
  = observe (accuracy 3 2 1 labels_world_again)
  ∧ (∀ r X, tensor_at labels_world r = Some X →
            tensor_at (accuracy 0 1 2 labels_world).2 r = Some X)
  ∧ var_scope (accuracy 0 1 2 labels_world).2 = var_scope labels_world
  ∧ collections (accuracy 0 1 2 labels_world).2 = collections labels_world
  ∧ averages (accuracy 0 1 2 labels_world).2 = averages labels_world.
Proof.
  apply (accuracy_deterministic_and_pure labels_world labels_world_again
           0 1 2 3 2 1
           (mkTensor [3] (BInt32 [0; 1; 2]%Z))
           (mkTensor [3] (BInt32 [0; 1; 1]%Z))
           (mkTensor [3] (f32_ones 3))); reflexivity.
Defined.

(** ** The adapter *)

Lemma variable_scope_run {A} name (body : VariableScope → M A) σ :
  tf.variable_scope name body σ
  = let n := tf.scope_join (var_scope σ) name in
    let out := body (mkScope n) (set_var_scope n σ) in
    (out.1, set_var_scope (var_scope σ) out.2).
Proof. unfold tf.variable_scope. simpl. by destruct (body _ _). Qed.

Lemma set_collections_same σ : set_collections (collections σ) σ = σ.
Proof. by destruct σ. Qed.

Lemma publish_step keys h σ :
  (if keys_given keys
   then utils.add_to_collections (default [] keys) h
   else ret tt) σ
  = (Ok tt, set_collections (publish keys h (collections σ)) σ).
Proof.
  unfold publish. destruct (keys_given keys) eqn:Hk.
  - reflexivity.
  - unfold ret. by rewrite set_collections_same.
Qed.

Lemma compute_after_block self t p w mc uc scope σ σb :
  tf.variable_scope (str_or scope (_name self))
    (StreamingMetric.scoped_body self t p w) σ = (Ok tt, σb) →
  StreamingMetric.compute self t p w mc uc scope σ
  = (Ok tt,
     set_collections
       (publish uc (StreamingMetric.update_op self)
          (publish mc (StreamingMetric.value self) (collections σb))) σb).
Proof.
  intros Hblock. unfold StreamingMetric.compute.
  rewrite bind_run, Hblock, bind_run, publish_step, publish_step.
  by destruct σb.
Qed.

(** When the scoped block raises nothing is published. *)
Lemma compute_block_raises self t p w mc uc scope σ σb e :
  tf.variable_scope (str_or scope (_name self))
    (StreamingMetric.scoped_body self t p w) σ = (Raise e, σb) →
  StreamingMetric.compute self t p w mc uc scope σ = (Raise e, σb).
Proof. intros Hblock. unfold StreamingMetric.compute. by rewrite bind_run, Hblock. Qed.

Lemma get_collection_add key h c k :
  utils.get_collection (utils.add_to_collection key h c) k
  = utils.get_collection c k ++ (if decide (key = k) then [h] else []).
Proof.
  unfold utils.add_to_collection, utils.get_collection at 1.
  case_decide as Hk.
  - subst. by rewrite lookup_insert_eq.
  - rewrite lookup_insert_ne by done. by rewrite app_nil_r.
Qed.

Lemma get_collection_foldl keys h c k :
  utils.get_collection
    (foldl (λ c key, utils.add_to_collection key h c) c keys) k
  = utils.get_collection c k
    ++ replicate (length (filter (λ x, x = k) keys)) h.
Proof.
  revert c. induction keys as [|key keys IH]; intros c; simpl.
  - by rewrite app_nil_r.
  - rewrite IH, get_collection_add, <- app_assoc. f_equal.
    rewrite filter_cons. by case_decide.
Qed.

Lemma get_collection_publish keys h c k :
  utils.get_collection (publish keys h c) k
  = utils.get_collection c k ++ replicate (occurrences k keys) h.
Proof.
  unfold publish, occurrences. destruct keys as [[|key keys]|]; simpl;
    try by rewrite app_nil_r.
  apply (get_collection_foldl (key :: keys)).
Qed.

Lemma publish_not_given keys h c : keys_given keys = false → publish keys h c = c.
Proof. intros Hk. unfold publish. by rewrite Hk. Qed.

(** C6. After the scoped block of [compute] has run, the running value is
    published under each key of [metrics_collections] and the update action
    under each key of [updates_collections]: every collection keeps what it
    held and gets the handle appended once for each time its key is named.
    A list of keys that is empty or [None] publishes nothing, and with both
    absent the collections are exactly as the block left them. Tensors,
    accumulators and the scope are not touched by the publication. *)
Theorem compute_publishes_by_appending self t p w mc uc scope σ σb :
  tf.variable_scope (str_or scope (_name self))
    (StreamingMetric.scoped_body self t p w) σ = (Ok tt, σb) →
  ∃ σ',
    StreamingMetric.compute self t p w mc uc scope σ = (Ok tt, σ')
    ∧ (∀ key,
         utils.get_collection (collections σ') key
         = utils.get_collection (collections σb) key
           ++ replicate (occurrences key mc) (StreamingMetric.value self)
           ++ replicate (occurrences key uc) (StreamingMetric.update_op self))
    ∧ (keys_given mc = false →
       collections σ'
       = publish uc (StreamingMetric.update_op self) (collections σb))
    ∧ (keys_given uc = false →
       collections σ'
       = publish mc (StreamingMetric.value self) (collections σb))
    ∧ (keys_given mc = false → keys_given uc = false → σ' = σb)
    ∧ graph σ' = graph σb ∧ averages σ' = averages σb
    ∧ var_scope σ' = var_scope σb.
Proof.
  intros Hblock. eexists. split; [by apply compute_after_block|].
  simpl. repeat split.
  - intros key. by rewrite !get_collection_publish, <- app_assoc.
  - intros Hmc. by rewrite (publish_not_given mc).
  - intros Huc. by rewrite (publish_not_given uc).
  - intros Hmc Huc. rewrite !publish_not_given by done.
    apply set_collections_same.
Qed.

Lemma compute_publishes_by_appending_witness :
  ∃ σ',
    StreamingMetric.compute accuracy_metric 0 1 2
      (Some ["metrics"; "eval"]%string) (Some ["updates"]%string) None
      metric_world = (Ok tt, σ')
    ∧ utils.get_collection (collections σ') "metrics"
      = [mkHandle 7 V_value; mkHandle 0 V_value]
    ∧ utils.get_collection (collections σ') "eval" = [mkHandle 0 V_value]
    ∧ utils.get_collection (collections σ') "updates"
      = [mkHandle 0 V_update_op]
    ∧ utils.get_collection (collections σ') "other" = [].
Proof.
  destruct (compute_publishes_by_appending accuracy_metric 0 1 2
              (Some ["metrics"; "eval"]%string) (Some ["updates"]%string)
              None metric_world
              (tf.variable_scope "accuracy"
                 (StreamingMetric.scoped_body accuracy_metric 0 1 2)
                 metric_world).2 eq_refl)
    as (σ' & Hrun & Hkeys & _).
  exists σ'. split; [exact Hrun|].
  rewrite !Hkeys. repeat split; reflexivity.
Defined.

(** C5. Calling the adapter declares what [compute] declares with the same
    arguments: the world after the call is the world after [compute], and
    an exception of [compute] is the exception of the call. The call then
    returns a pair whose first component is the handle of the running value
    of the bound accumulator, which reads the running mean, and whose
    second component is the handle of its update action, which performs
    the update transition. *)
Theorem call_computes_then_returns_handles self t p w mc uc scope σ :
  StreamingMetric.__call__ self t p w mc uc scope σ
  = match StreamingMetric.compute self t p w mc uc scope σ with
    | (Ok _, σ') =>
        (Ok (StreamingMetric.value self, StreamingMetric.update_op self), σ')
    | (Raise e, σ') => (Raise e, σ')
    end
  ∧ StreamingMetric.value self = mkHandle (_avg self) V_value
  ∧ StreamingMetric.update_op self = mkHandle (_avg self) V_update_op
  ∧ (∀ σ' a, averages σ' !! _avg self = Some a →
       streaming.read σ' (StreamingMetric.value self)
       = Some (streaming.safe_div (running_sum (avg_state a))
                 (running_weight (avg_state a))))
  ∧ (∀ σ' a s u, averages σ' !! _avg self = Some a →
       averages (streaming.run (StreamingMetric.update_op self) s u σ')
         !! _avg self
       = Some (mkAverage (streaming.update s u (avg_state a)) (avg_decl a))).
Proof.
  repeat split.
  - intros σ' a Ha. unfold streaming.read. simpl. by rewrite Ha.
  - intros σ' a s u Ha. unfold streaming.run. simpl.
    rewrite list_lookup_alter_eq. by rewrite Ha.
Qed.

Lemma str_or_given name d : name ≠ EmptyString → str_or (Some name) d = name.
Proof. intros Hn. unfold str_or. by rewrite decide_False. Qed.

(** An empty scope string counts as no scope. *)
Lemma str_or_empty d : str_or (Some EmptyString) d = d.
Proof. reflexivity. Qed.

(** C7. [compute] opens the variable scope named by the caller when a scope
    name is given, and the scope named after the adapter when the scope is
    [None]. The scoring function runs with that scope as the current one,
    so what it builds is built under it: the tensors that [accuracy] adds
    all carry that scope. The accumulator is told to accumulate the
    returned values and weights under that same scope, and the scope that
    was current before is current again afterwards. *)
Theorem compute_builds_under_scope self t p w mc uc scope name σ v u σ1 a :
  (scope = Some name ∧ name ≠ EmptyString)
  ∨ (scope = None ∧ name = _name self) →
  _func self t p w (set_var_scope (tf.scope_join (var_scope σ) name) σ)
  = (Ok (v, u), σ1) →
  averages σ1 !! _avg self = Some a →
  ∃ σ',
    StreamingMetric.compute self t p w mc uc scope σ = (Ok tt, σ')
    ∧ graph σ' = graph σ1
    ∧ averages σ' !! _avg self
      = Some (mkAverage (avg_state a)
                (Some (mkDecl (tf.scope_join (var_scope σ) name) v u)))
    ∧ var_scope σ' = var_scope σ
    ∧ (_func self = accuracy →
       is_Some (tensor_at σ t) → is_Some (tensor_at σ p) →
       is_Some (tensor_at σ w) →
       ∃ new,
         graph σ'
         = graph σ ++ (mkNode (tf.scope_join (var_scope σ) name) <$> new)).
Proof.
  intros Hscope Hfunc Ha.
  assert (Hname : str_or scope (_name self) = name).
  { destruct Hscope as [[-> Hn]|[-> ->]]; [by apply str_or_given|done]. }
  eexists. split.
  - apply compute_after_block.
    rewrite variable_scope_run, Hname. simpl.
    unfold StreamingMetric.scoped_body.
    rewrite bind_run, Hfunc. simpl. reflexivity.
  - simpl. repeat split.
    + rewrite list_lookup_alter_eq. by rewrite Ha.
    + intros Hacc [T Ht] [P Hp] [W Hw]. rewrite Hacc in Hfunc.
      pose proof (accuracy_pushes
                    (set_var_scope (tf.scope_join (var_scope σ) name) σ)
                    t p w T P W Ht Hp Hw) as Hpushes.
      rewrite Hfunc in Hpushes. by apply pushes_graph in Hpushes.
Qed.

Lemma compute_builds_under_scope_witness :
  ∃ σ',
    StreamingMetric.compute accuracy_metric 0 1 2 None None
      (Some "eval"%string) metric_world = (Ok tt, σ')
    ∧ node_scope <$> drop 3 (graph σ') = ["eval"; "eval"; "eval"]%string
    ∧ averages σ' !! 0
      = Some (mkAverage streaming.zero_state (Some (mkDecl "eval" 5 2)))
    ∧ var_scope σ' = EmptyString.
Proof.
  destruct (compute_builds_under_scope accuracy_metric 0 1 2 None None
              (Some "eval"%string) "eval"%string metric_world 5 2
              (accuracy 0 1 2 (set_var_scope "eval" metric_world)).2
              (mkAverage streaming.zero_state None))
    as (σ' & Hrun & Hgraph & Havg & Hscope & _).
  - left. split; [reflexivity|discriminate].
  - reflexivity.
  - reflexivity.
  - exists σ'. split; [exact Hrun|]. rewrite Hgraph.
    split; [reflexivity|]. split; [exact Havg|exact Hscope].
Defined.

(** With no scope given the adapter's own name is used. *)
Lemma compute_default_scope_example :
  ∃ σ',
    StreamingMetric.compute accuracy_metric 0 1 2 None None None metric_world
    = (Ok tt, σ')
    ∧ node_scope <$> drop 3 (graph σ')
      = ["accuracy"; "accuracy"; "accuracy"]%string
    ∧ averages σ' !! 0
      = Some (mkAverage streaming.zero_state (Some (mkDecl "accuracy" 5 2))).
Proof. eexists. by vm_compute. Qed.

(** A call on the first example: the two handles of accumulator 0. *)
Lemma call_example :
  (StreamingMetric.__call__ accuracy_metric 0 1 2 None None None
     metric_world).1
  = Ok (mkHandle 0 V_value, mkHandle 0 V_update_op).
Proof. reflexivity. Qed.

(** ** Ownership of the accumulator *)

Lemma init_run assigned func average name σ :
  StreamingMetric.__init__ assigned func average name σ
  = match average with
    | Some a => (Ok (mkMetric (assigned name) func a), σ)
    | None =>
        (Ok (mkMetric (assigned name) func (length (averages σ))),
         set_averages
           (averages σ ++ [mkAverage streaming.zero_state None]) σ)
    end.
Proof. by destruct average. Qed.

Lemma run_other_accumulator h s u σ b :
  h_avg h ≠ b → averages (streaming.run h s u σ) !! b = averages σ !! b.
Proof.
  intros Hne. unfold streaming.run.
  destruct (h_view h); simpl; try done; by rewrite list_lookup_alter_ne.
Qed.

Lemma read_other_accumulator h s u σ g :
  h_avg h ≠ h_avg g →
  streaming.read (streaming.run h s u σ) g = streaming.read σ g.
Proof. intros Hne. unfold streaming.read. by rewrite run_other_accumulator. Qed.

(** C10. A metric made without an [average] gets an accumulator of its own:
    a new object, zeroed, that no reference of the world before could name.
    A second metric made later without an [average] has another
    accumulator, and running the update or the reset action of either
    metric changes nothing that is read through the other. A later metric
    has the accumulator of the first one exactly when that accumulator is
    passed to it as [average]. *)
Theorem init_owns_fresh_average assigned f1 n1 σ r1 σ1 σ2 :
  StreamingMetric.__init__ assigned f1 None n1 σ = (r1, σ1) →
  length (averages σ1) ≤ length (averages σ2) →
  ∃ m1,
    r1 = Ok m1
    ∧ averages σ !! _avg m1 = None
    ∧ averages σ1 !! _avg m1 = Some (mkAverage streaming.zero_state None)
    ∧ ∀ f2 average n2, ∃ m2 σ3,
        StreamingMetric.__init__ assigned f2 average n2 σ2 = (Ok m2, σ3)
        ∧ (_avg m2 = _avg m1 ↔ average = Some (_avg m1))
        ∧ (average = None →
           _avg m2 ≠ _avg m1
           ∧ ∀ action view s u σ',
               streaming.read
                 (streaming.run (mkHandle (_avg m1) action) s u σ')
                 (mkHandle (_avg m2) view)
               = streaming.read σ' (mkHandle (_avg m2) view)
               ∧ streaming.read
                   (streaming.run (mkHandle (_avg m2) action) s u σ')
                   (mkHandle (_avg m1) view)
                 = streaming.read σ' (mkHandle (_avg m1) view)).
Proof.
  rewrite init_run. intros [= <- <-] Hlen. simpl in Hlen.
  rewrite length_app in Hlen. simpl in Hlen.
  eexists. split; [done|]. simpl. split; [|split].
  - apply lookup_ge_None. lia.
  - by rewrite list_lookup_middle.
  - intros f2 average n2. rewrite init_run.
    destruct average as [a|]; eexists _, _; (split; [done|]); simpl.
    + split; [split; [by intros ->|by intros [= ->]]|done].
    + split; [split; [lia|done]|]. intros _. split; [lia|].
      intros action view s u σ'.
      split; apply read_other_accumulator; simpl; lia.
Qed.

Lemma init_owns_fresh_average_witness :
  ∃ m1 σ1,
    StreamingMetric.__init__ class_name accuracy None None metric_world
    = (Ok m1, σ1)
    ∧ _avg m1 = 1
    ∧ averages metric_world !! _avg m1 = None
    ∧ ∀ f2 average n2, ∃ m2 σ3,
        StreamingMetric.__init__ class_name f2 average n2 σ1 = (Ok m2, σ3)
        ∧ (_avg m2 = _avg m1 ↔ average = Some (_avg m1)).
Proof.
  destruct (init_owns_fresh_average class_name accuracy None metric_world
              (StreamingMetric.__init__ class_name accuracy None None
                 metric_world).1
              (StreamingMetric.__init__ class_name accuracy None None
                 metric_world).2
              (StreamingMetric.__init__ class_name accuracy None None
                 metric_world).2 eq_refl (le_n _))
    as (m1 & Hm1 & Hfresh & _ & Hlater).
  injection Hm1 as <-.
  eexists _, _. split; [reflexivity|]. split; [reflexivity|].
  split; [exact Hfresh|].
  intros f2 average n2.
  destruct (Hlater f2 average n2) as (m2 & σ3 & Hinit & Hiff & _).
  by exists m2, σ3.
Defined.

(** Two metrics that are given one accumulator see one state. *)
Lemma shared_average_is_shared assigned f1 f2 n1 n2 a σ σ2 :
  ∃ m1 m2,
    StreamingMetric.__init__ assigned f1 (Some a) n1 σ = (Ok m1, σ)
    ∧ StreamingMetric.__init__ assigned f2 (Some a) n2 σ2 = (Ok m2, σ2)
    ∧ ∀ s u σ',
        streaming.read
          (streaming.run (StreamingMetric.update_op m1) s u σ')
          (StreamingMetric.value m2)
        = streaming.read
            (streaming.run (StreamingMetric.update_op m1) s u σ')
            (StreamingMetric.value m1).
Proof. eexists _, _. by rewrite !init_run. Qed.

(** ** The view [total] *)

(** C4 does not hold of the source. [total] gives the handle that [value]
    gives, so it reads the running mean; [count] does read the running
    weight. With a running sum of 2 over a running weight of 4, [total]
    reads 0.5 and not 2. *)
Theorem total_reads_running_mean :
  (∀ self, StreamingMetric.total self = StreamingMetric.value self)
  ∧ (∀ self, StreamingMetric.count self = streaming.count (_avg self))
  ∧ streaming.read half_world (StreamingMetric.total accuracy_metric)
    = Some (Float64.div (Float64.of_Z 2) (Float64.of_Z 4))
  ∧ streaming.read half_world (StreamingMetric.count accuracy_metric)
    = Some (running_weight half_state)
  ∧ streaming.read half_world (streaming.total (_avg accuracy_metric))
    = Some (running_sum half_state)
  ∧ streaming.read half_world (StreamingMetric.total accuracy_metric)
    ≠ Some (running_sum half_state).
Proof. repeat split. by vm_compute. Qed.

(** * Further properties *)

(** ** Failure and scope of [compute] *)

Lemma compute_scope_block self t p w scope σ :
  tf.variable_scope (str_or scope (_name self))
    (StreamingMetric.scoped_body self t p w) σ
  = let n := tf.scope_join (var_scope σ) (str_or scope (_name self)) in
    match _func self t p w (set_var_scope n σ) with
    | (Ok (values, weights), σ1) =>
        (Ok tt,
         set_var_scope (var_scope σ)
           (streaming.compute (_avg self) values weights (mkScope n) σ1).2)
    | (Raise e, σ1) => (Raise e, set_var_scope (var_scope σ) σ1)
    end.
Proof.
  rewrite variable_scope_run. simpl.
  unfold StreamingMetric.scoped_body. rewrite bind_run.
  by destruct (_func self t p w _) as [[[values weights]|e] σ1].
Qed.

(** X1. Whatever the scoring function is, when it raises inside the scope
    of [compute], [compute] and a call of the adapter raise the same
    exception. The world is the one the scoring function left, with the
    scope that was current before: nothing is published, whatever keys were
    given, and no accumulator is touched. *)
Theorem compute_propagates_failure self t p w mc uc scope σ e σ1 :
  _func self t p w
    (set_var_scope
       (tf.scope_join (var_scope σ) (str_or scope (_name self))) σ)
  = (Raise e, σ1) →
  StreamingMetric.compute self t p w mc uc scope σ
  = (Raise e, set_var_scope (var_scope σ) σ1)
  ∧ StreamingMetric.__call__ self t p w mc uc scope σ
    = (Raise e, set_var_scope (var_scope σ) σ1)
  ∧ collections (StreamingMetric.compute self t p w mc uc scope σ).2
    = collections σ1
  ∧ averages (StreamingMetric.compute self t p w mc uc scope σ).2
    = averages σ1.
Proof.
  intros Hfunc.
  assert (Hcompute : StreamingMetric.compute self t p w mc uc scope σ
                     = (Raise e, set_var_scope (var_scope σ) σ1)).
  { apply compute_block_raises.
    rewrite compute_scope_block. simpl. by rewrite Hfunc. }
  split; [done|]. split.
  - unfold StreamingMetric.__call__. by rewrite bind_run, Hcompute.
  - by rewrite Hcompute.
Qed.

Lemma compute_propagates_failure_witness :
  StreamingMetric.compute accuracy_metric 0 1 2
    (Some ["metrics"]%string) (Some ["updates"]%string) (Some "eval"%string)
    int64_targets_world
  = (Raise (TensorFlowError (DTypeMismatch DT_INT64 DT_INT32)),
     (StreamingMetric.compute accuracy_metric 0 1 2
        (Some ["metrics"]%string) (Some ["updates"]%string)
        (Some "eval"%string) int64_targets_world).2)
  ∧ collections
      (StreamingMetric.compute accuracy_metric 0 1 2
         (Some ["metrics"]%string) (Some ["updates"]%string)
         (Some "eval"%string) int64_targets_world).2
    = collections int64_targets_world
  ∧ averages
      (StreamingMetric.compute accuracy_metric 0 1 2
         (Some ["metrics"]%string) (Some ["updates"]%string)
         (Some "eval"%string) int64_targets_world).2
    = averages int64_targets_world.
Proof.
  destruct (compute_propagates_failure accuracy_metric 0 1 2
              (Some ["metrics"]%string) (Some ["updates"]%string)
              (Some "eval"%string) int64_targets_world
              (TensorFlowError (DTypeMismatch DT_INT64 DT_INT32))
              (accuracy 0 1 2 (set_var_scope "eval" int64_targets_world)).2
              eq_refl)
    as (Hcompute & _ & Hcollections & Haverages).
  rewrite Hcollections, Haverages. rewrite Hcompute at 1.
  repeat split.
Defined.

Lemma publish_step_var_scope keys h σ :
  var_scope
    ((if keys_given keys
      then utils.add_to_collections (default [] keys) h
      else ret tt) σ).2
  = var_scope σ.
Proof. by rewrite publish_step. Qed.

(** X2. [compute] and a call of the adapter leave the current variable
    scope as they found it, for every scoring function and whether it
    returns or raises, also when the scoring function changes the scope
    itself. *)
Theorem compute_restores_scope self t p w mc uc scope σ :
  var_scope (StreamingMetric.compute self t p w mc uc scope σ).2
  = var_scope σ
  ∧ var_scope (StreamingMetric.__call__ self t p w mc uc scope σ).2
    = var_scope σ.
Proof.
  assert (Hcompute :
    var_scope (StreamingMetric.compute self t p w mc uc scope σ).2
    = var_scope σ).
  { unfold StreamingMetric.compute.
    rewrite bind_run, compute_scope_block. simpl.
    destruct (_func self t p w _) as [[[values weights]|e] σ1]; [|done].
    by rewrite bind_run, publish_step, publish_step. }
  split; [done|].
  unfold StreamingMetric.__call__. rewrite bind_run.
  by destruct (StreamingMetric.compute self t p w mc uc scope σ)
    as [[[]|e] σ'].
Qed.

(** ** Broadcasting a single element *)

Lemma chunks_count {A} n k (l : list A) : length (Shape.chunks n k l) = k.
Proof.
  revert l. induction k as [|k IH]; intros l; simpl; [done|].
  by rewrite IH.
Qed.

Lemma numel_ones k : Shape.numel (replicate k 1) = 1.
Proof. induction k as [|k IH]; simpl; [done|]. rewrite IH. lia. Qed.

Lemma concat_replicate_replicate {A} o m (x : A) :
  concat (replicate o (replicate m x)) = replicate (o * m) x.
Proof.
  induction o as [|o IH]; simpl; [done|].
  by rewrite IH, replicate_add.
Qed.

Lemma expand_single {A} (out : Shape.t) (x : A) :
  Shape.expand (replicate (length out) 1) out [x]
  = replicate (Shape.numel out) x.
Proof.
  induction out as [|o out IH]; [done|].
  simpl. rewrite numel_ones. simpl. rewrite IH, app_nil_r.
  case_decide as Ho.
  - subst o. simpl. by rewrite Nat.add_0_r.
  - apply concat_replicate_replicate.
Qed.

Lemma broadcast_to_single {A} (out : Shape.t) (x : A) :
  Shape.broadcast_to [] out [x] = replicate (Shape.numel out) x.
Proof.
  unfold Shape.broadcast_to, Shape.pad_to. simpl.
  rewrite Nat.sub_0_r, app_nil_r. apply expand_single.
Qed.

Lemma broadcast_scalar_r s : Shape.broadcast s [] = Some s.
Proof.
  unfold Shape.broadcast. simpl.
  destruct (reverse s) eqn:Hs; simpl.
  - apply (f_equal reverse) in Hs. rewrite reverse_involutive in Hs.
    by subst s.
  - by rewrite <- Hs, reverse_involutive.
Qed.

Lemma zip_with_replicate_r {A B C} (f : A → B → C) (l : list A) (y : B) :
  zip_with f l (replicate (length l) y) = map (λ x, f x y) l.
Proof. induction l as [|x l IH]; simpl; [done|]. by rewrite IH. Qed.

Lemma zip_at_scalar_r {A B} (f : A → A → B) s (a : list A) (y : A) :
  length a = Shape.numel s →
  Kernels.zip_at f s [] s a [y] = map (λ x, f x y) a.
Proof.
  intros Ha. unfold Kernels.zip_at.
  rewrite broadcast_to_same, broadcast_to_single by done.
  rewrite <- Ha. apply zip_with_replicate_r.
Qed.

Lemma kernel_multiply_scalar s matches w0 :
  length matches = Shape.numel s →
  Kernels.multiply (Kernels.cast DT_FLOAT32 (mkTensor s (BBool matches)))
    (mkTensor [] (BFloat32 [w0]))
  = Ok (mkTensor s
          (BFloat32 (map (λ m, Float32.mul (Float32.of_bool m) w0) matches))).
Proof.
  intros Hlen.
  unfold Kernels.multiply, Kernels.binary_shape, Kernels.cast, Tensors.dtype.
  simpl. rewrite broadcast_scalar_r.
  rewrite zip_at_scalar_r by (by rewrite length_map).
  by rewrite map_map.
Qed.

Lemma kernel_equal_scalar s tl c :
  length tl = Shape.numel s →
  Kernels.equal (mkTensor s (BInt32 tl)) (mkTensor [] (BInt32 [c]))
  = Ok (mkTensor s (BBool (map (λ x, (x =? c)%Z) tl))).
Proof.
  intros Hlen.
  unfold Kernels.equal, Kernels.binary_shape, Tensors.dtype.
  simpl. rewrite broadcast_scalar_r.
  by rewrite zip_at_scalar_r.
Qed.

Lemma kernel_argmax_last_scores s n scores :
  n ≠ 0 →
  Kernels.argmax_last (mkTensor (s ++ [n]) (BFloat32 scores))
  = Ok (mkTensor s
          (BInt64
             (map (Kernels.argmax_row (λ u v, Float32.ltb v u) Float32.lowest)
                (Shape.chunks n (Shape.numel s) scores)))).
Proof.
  intros Hn. unfold Kernels.argmax_last. simpl.
  rewrite reverse_snoc, reverse_involutive.
  by rewrite decide_False.
Qed.

(** The world after a successful run of lines 200 to 203. *)
Lemma compare_labels_ok σ t l w T L W E V :
  tensor_at σ t = Some T → tensor_at σ l = Some L → tensor_at σ w = Some W →
  Kernels.equal T L = Ok E →
  Kernels.multiply (Kernels.cast DT_FLOAT32 E) W = Ok V →
  compare_labels t l w σ
  = (Ok (length (graph σ) + 2, w),
     push V (push (Kernels.cast DT_FLOAT32 E) (push E σ)))
  ∧ tensor_at (push V (push (Kernels.cast DT_FLOAT32 E) (push E σ)))
      (length (graph σ) + 2) = Some V.
Proof.
  intros Ht Hl Hw HE HV.
  rewrite (compare_labels_run _ _ _ _ _ _ _ Ht Hl Hw), HE. simpl.
  rewrite HV. split; [done|].
  apply tensor_at_push_at. rewrite !length_graph_push. lia.
Qed.

(** ** What [accuracy] computes on its documented inputs *)

(** X3. For [int32] targets of any shape, [float32] class scores with one
    more trailing axis of at least one class, and [float32] weights of the
    shape of the targets, [accuracy] succeeds: it returns the weights it was
    given and a new tensor of the shape of the targets. Its element is the
    weight times one where the target equals the arg-max of its row of
    scores, cast to [int32], and the weight times zero elsewhere. *)
Theorem accuracy_scores_distribution σ t p w s n tl scores ws :
  tensor_at σ t = Some (mkTensor s (BInt32 tl)) →
  tensor_at σ p = Some (mkTensor (s ++ [n]) (BFloat32 scores)) →
  tensor_at σ w = Some (mkTensor s (BFloat32 ws)) →
  n ≠ 0 → length tl = Shape.numel s → length ws = Shape.numel s →
  ∃ v σ',
    accuracy t p w σ = (Ok (v, w), σ')
    ∧ tensor_at σ' v
      = Some (mkTensor s
                (BFloat32
                   (weighted_matches
                      (zip_with Z.eqb tl (decode_rows n (Shape.numel s) scores))
                      ws))).
Proof.
  intros Ht Hp Hw Hn Htl Hws.
  rewrite (accuracy_run _ _ _ _ _ _ _ Ht Hp Hw).
  unfold Tensors.ndims. simpl. rewrite length_app. simpl.
  destruct (Nat.ltb_spec (length s) (length s + 1)); [|lia].
  destruct (Nat.ltb_spec 1 (length s + 1 - length s)); [lia|].
  rewrite kernel_argmax_last_scores by done.
  set (A := mkTensor s (BInt64 _)).
  set (L := Kernels.cast DT_INT32 A).
  assert (Hlabels : length (decode_rows n (Shape.numel s) scores)
                    = Shape.numel s).
  { unfold decode_rows. by rewrite !length_map, chunks_count. }
  assert (HE : Kernels.equal (mkTensor s (BInt32 tl)) L
               = Ok (mkTensor s (BBool (zip_with Z.eqb tl
                       (decode_rows n (Shape.numel s) scores))))).
  { by apply kernel_equal_same_shape. }
  assert (HV : Kernels.multiply
                 (Kernels.cast DT_FLOAT32
                    (mkTensor s (BBool (zip_with Z.eqb tl
                       (decode_rows n (Shape.numel s) scores)))))
                 (mkTensor s (BFloat32 ws))
               = Ok (mkTensor s (BFloat32 (weighted_matches
                       (zip_with Z.eqb tl
                          (decode_rows n (Shape.numel s) scores)) ws)))).
  { apply kernel_multiply_same_shape; try done.
    rewrite length_zip_with. lia. }
  destruct (compare_labels_ok (push L (push A (push tf.axis_last σ))) t
              (length (graph σ) + 2) w _ L _ _ _
              ltac:(by do 3 apply tensor_at_push_old)
              ltac:(apply tensor_at_push_at; rewrite !length_graph_push; lia)
              ltac:(by do 3 apply tensor_at_push_old) HE HV)
    as [Hrun Hat].
  rewrite Hrun. by eexists _, _.
Qed.

Lemma accuracy_scores_distribution_witness :
  ∃ v σ',
    accuracy 0 1 2 batch_world = (Ok (v, 2), σ')
    ∧ tensor_at σ' v
      = Some (mkTensor [2] (BFloat32 [Float32.one; Float32.zero])).
Proof.
  apply (accuracy_scores_distribution batch_world 0 1 2 [2] 3
           [1; 0]%Z
           [f32_0_1; f32_0_7; f32_0_2; f32_0_2; f32_0_1; f32_0_7]
           [Float32.one; f32_0_2]);
    [reflexivity | reflexivity | reflexivity | discriminate
    | reflexivity | reflexivity].
Defined.

(** X4. A scalar weight is applied to every position. For targets and
    predictions of one shape and dtype and a [float32] weight of rank 0,
    [accuracy] succeeds and gives a tensor of the shape of the targets:
    each match, as a number, times that one weight. *)
Theorem accuracy_scalar_weight σ t p w T P matches w0 :
  tensor_at σ t = Some T → tensor_at σ p = Some P →
  tensor_at σ w = Some (mkTensor [] (BFloat32 [w0])) →
  Tensors.wf T → Tensors.wf P → shape P = shape T →
  elementwise_equal (buf T) (buf P) = Some matches →
  ∃ v σ',
    accuracy t p w σ = (Ok (v, w), σ')
    ∧ tensor_at σ' v
      = Some (mkTensor (shape T)
                (BFloat32
                   (map (λ m, Float32.mul (Float32.of_bool m) w0) matches))).
Proof.
  intros Ht Hp Hw HT HP Hs Heq.
  rewrite (accuracy_run _ _ _ _ _ _ _ Ht Hp Hw).
  unfold Tensors.ndims. rewrite Hs, Nat.ltb_irrefl.
  assert (Hlen : length matches = Shape.numel (shape T)).
  { apply (elementwise_equal_length _ _ _ _ Heq HT).
    unfold Tensors.wf in HP. by rewrite HP, Hs. }
  destruct (compare_labels_ok σ t p w _ _ _ _ _ Ht Hp Hw
              (kernel_equal_same_shape _ _ _ Hs HT HP Heq)
              (kernel_multiply_scalar _ _ w0 Hlen))
    as [Hrun Hat].
  rewrite Hrun. by eexists _, _.
Qed.

Lemma accuracy_scalar_weight_witness :
  ∃ v σ',
    accuracy 0 1 2 scalar_weight_world = (Ok (v, 2), σ')
    ∧ tensor_at σ' v
      = Some (mkTensor [3] (BFloat32 [f32_0_2; f32_0_2; Float32.zero])).
Proof.
  apply (accuracy_scalar_weight scalar_weight_world 0 1 2
           (mkTensor [3] (BInt32 [0; 1; 2]%Z))
           (mkTensor [3] (BInt32 [0; 1; 1]%Z))
           [true; true; false] f32_0_2); reflexivity.
Defined.

(** X5. Predictions of a lower rank are not rejected but broadcast: with
    [int32] targets of any shape, a single [int32] label of rank 0 as
    predictions and [float32] weights of the shape of the targets,
    [accuracy] succeeds and compares every target with that one label. *)
Theorem accuracy_scalar_prediction σ t p w s tl c ws :
  tensor_at σ t = Some (mkTensor s (BInt32 tl)) →
  tensor_at σ p = Some (mkTensor [] (BInt32 [c])) →
  tensor_at σ w = Some (mkTensor s (BFloat32 ws)) →
  length tl = Shape.numel s → length ws = Shape.numel s →
  ∃ v σ',
    accuracy t p w σ = (Ok (v, w), σ')
    ∧ tensor_at σ' v
      = Some (mkTensor s
                (BFloat32
                   (weighted_matches (map (λ x, (x =? c)%Z) tl) ws))).
Proof.
  intros Ht Hp Hw Htl Hws.
  rewrite (accuracy_run _ _ _ _ _ _ _ Ht Hp Hw).
  unfold Tensors.ndims. simpl.
  destruct (Nat.ltb_spec (length s) 0); [lia|].
  destruct (compare_labels_ok σ t p w _ _ _ _ _ Ht Hp Hw
              (kernel_equal_scalar s tl c Htl)
              (kernel_multiply_same_shape s (map (λ x, (x =? c)%Z) tl) ws
                 (mkTensor s (BFloat32 ws)) eq_refl eq_refl
                 ltac:(by rewrite length_map) Hws))
    as [Hrun Hat].
  rewrite Hrun. by eexists _, _.
Qed.

Lemma accuracy_scalar_prediction_witness :
  ∃ v σ',
    accuracy 0 1 2 scalar_prediction_world = (Ok (v, 2), σ')
    ∧ tensor_at σ' v
      = Some (mkTensor [2; 2]
                (BFloat32 [Float32.zero; Float32.one;
                           Float32.one; Float32.one])).
Proof.
  apply (accuracy_scalar_prediction scalar_prediction_world 0 1 2
           [2; 2] [0; 1; 1; 1]%Z 1%Z
           [Float32.one; Float32.one; Float32.one; Float32.one]);
    reflexivity.
Defined.

(** ** What a successful run of [accuracy] implies *)

Lemma binary_shape_ok X Y s :
  Kernels.binary_shape X Y = Ok s → Tensors.dtype X = Tensors.dtype Y.
Proof. unfold Kernels.binary_shape. by case_decide. Qed.

Lemma kernel_equal_ok X Y E :
  Kernels.equal X Y = Ok E → Tensors.dtype X = Tensors.dtype Y.
Proof.
  unfold Kernels.equal.
  destruct (Kernels.binary_shape X Y) eqn:Hs; [|done].
  intros _. by eapply binary_shape_ok.
Qed.

Lemma kernel_multiply_ok X Y V :
  Kernels.multiply X Y = Ok V →
  Tensors.dtype X = Tensors.dtype Y ∧ Tensors.dtype V = Tensors.dtype X.
Proof.
  unfold Kernels.multiply, Tensors.dtype.
  destruct (Kernels.binary_shape X Y) eqn:Hs; [|done].
  apply binary_shape_ok in Hs. unfold Tensors.dtype in Hs.
  destruct (buf X), (buf Y); simpl in *; try done; try case_decide;
    try done; intros [= <-]; simpl; split; congruence.
Qed.

Lemma compare_labels_inv σ t l w T L W v u σ' :
  tensor_at σ t = Some T → tensor_at σ l = Some L → tensor_at σ w = Some W →
  compare_labels t l w σ = (Ok (v, u), σ') →
  ∃ E V,
    Kernels.equal T L = Ok E
    ∧ Kernels.multiply (Kernels.cast DT_FLOAT32 E) W = Ok V
    ∧ σ' = push V (push (Kernels.cast DT_FLOAT32 E) (push E σ))
    ∧ v = length (graph σ) + 2 ∧ u = w.
Proof.
  intros Ht Hl Hw. rewrite (compare_labels_run _ _ _ _ _ _ _ Ht Hl Hw).
  destruct (Kernels.equal T L) as [E|e]; [|done]. simpl.
  destruct (Kernels.multiply _ W) as [V|e] eqn:HV; [|done].
  intros Hrun. simplify_eq. by exists E, V.
Qed.

(** X6. [accuracy] succeeds on well-typed arguments only. If a call
    returns, the rank of the predictions is at most one above the rank of
    the targets and the weights are [float32]; when the predictions were
    decoded the targets are [int32], the dtype the labels are cast to, and
    otherwise predictions and targets have one dtype. *)
Theorem accuracy_success_needs_dtypes σ t p w T P W r σ' :
  tensor_at σ t = Some T → tensor_at σ p = Some P → tensor_at σ w = Some W →
  accuracy t p w σ = (Ok r, σ') →
  Tensors.ndims P ≤ Tensors.ndims T + 1
  ∧ Tensors.dtype W = DT_FLOAT32
  ∧ (Tensors.ndims P = Tensors.ndims T + 1 → Tensors.dtype T = DT_INT32)
  ∧ (Tensors.ndims P ≤ Tensors.ndims T →
     Tensors.dtype P = Tensors.dtype T).
Proof.
  intros Ht Hp Hw. destruct r as [v u].
  rewrite (accuracy_run _ _ _ _ _ _ _ Ht Hp Hw).
  destruct (Nat.ltb_spec (Tensors.ndims T) (Tensors.ndims P)) as [Hlt|Hle].
  - destruct (Nat.ltb_spec 1 (Tensors.ndims P - Tensors.ndims T)); [done|].
    destruct (Kernels.argmax_last P) as [A|e]; [|done].
    intros Hrun.
    apply (compare_labels_inv _ _ _ _ T (Kernels.cast DT_INT32 A) W) in Hrun
      as (E & V & HE & HV & _);
      [| by do 3 apply tensor_at_push_old
       | apply tensor_at_push_at; rewrite !length_graph_push; lia
       | by do 3 apply tensor_at_push_old].
    apply kernel_equal_ok in HE. apply kernel_multiply_ok in HV as [HV _].
    rewrite cast_dtype in HE, HV.
    repeat split; [lia|done|done|intros; lia].
  - intros Hrun.
    apply (compare_labels_inv _ _ _ _ T P W) in Hrun
      as (E & V & HE & HV & _); [|done..].
    apply kernel_equal_ok in HE. apply kernel_multiply_ok in HV as [HV _].
    rewrite cast_dtype in HV.
    repeat split; [lia|done|intros; lia|done].
Qed.

Lemma accuracy_success_needs_dtypes_witness :
  Tensors.ndims (mkTensor [2; 3] (BFloat32 [f32_0_1; f32_0_7; f32_0_2;
                                            f32_0_2; f32_0_1; f32_0_7]))
  ≤ Tensors.ndims (mkTensor [2] (BInt32 [1; 0]%Z)) + 1
  ∧ Tensors.dtype (mkTensor [2] (BFloat32 [Float32.one; f32_0_2]))
    = DT_FLOAT32.
Proof.
  destruct (accuracy_success_needs_dtypes batch_world 0 1 2
              (mkTensor [2] (BInt32 [1; 0]%Z))
              (mkTensor [2; 3] (BFloat32 [f32_0_1; f32_0_7; f32_0_2;
                                          f32_0_2; f32_0_1; f32_0_7]))
              (mkTensor [2] (BFloat32 [Float32.one; f32_0_2]))
              (ok_value (0, 0) (accuracy 0 1 2 batch_world).1)
              (accuracy 0 1 2 batch_world).2
              eq_refl eq_refl eq_refl eq_refl)
    as (Hrank & Hweights & _).
  by split.
Defined.

(** X7. What a successful call of [accuracy] hands back. The weights are
    the reference that was passed in. The values are the last tensor of the
    graph, a new [float32] tensor that no reference could name before the
    call. The graph has grown by exactly three tensors, the comparison, its
    cast and the product, or by six when the predictions were decoded: the
    axis of the arg-max, the arg-max and its cast come before them. *)
Theorem accuracy_success_result σ t p w T P W v u σ' :
  tensor_at σ t = Some T → tensor_at σ p = Some P → tensor_at σ w = Some W →
  accuracy t p w σ = (Ok (v, u), σ') →
  u = w
  ∧ length (graph σ') = length (graph σ) + tensors_added T P
  ∧ v = length (graph σ') - 1
  ∧ tensor_at σ v = None
  ∧ ∃ V, tensor_at σ' v = Some V ∧ Tensors.dtype V = DT_FLOAT32.
Proof.
  intros Ht Hp Hw. unfold tensors_added.
  rewrite (accuracy_run _ _ _ _ _ _ _ Ht Hp Hw).
  assert (Hnone : ∀ r, length (graph σ) ≤ r → tensor_at σ r = None).
  { intros r Hr. unfold tensor_at. by rewrite lookup_ge_None_2. }
  destruct (Nat.ltb_spec (Tensors.ndims T) (Tensors.ndims P)) as [Hlt|Hle].
  - destruct (Nat.ltb_spec 1 (Tensors.ndims P - Tensors.ndims T)); [done|].
    destruct (Kernels.argmax_last P) as [A|e]; [|done].
    intros Hrun.
    apply (compare_labels_inv _ _ _ _ T (Kernels.cast DT_INT32 A) W) in Hrun
      as (E & V & HE & HV & -> & -> & ->);
      [| by do 3 apply tensor_at_push_old
       | apply tensor_at_push_at; rewrite !length_graph_push; lia
       | by do 3 apply tensor_at_push_old].
    apply kernel_multiply_ok in HV as [_ HV]. rewrite cast_dtype in HV.
    rewrite !length_graph_push.
    split; [done|]. split; [lia|]. split; [lia|]. split.
    + apply Hnone. lia.
    + exists V. split; [|done].
      apply tensor_at_push_at. rewrite !length_graph_push. lia.
  - intros Hrun.
    apply (compare_labels_inv _ _ _ _ T P W) in Hrun
      as (E & V & HE & HV & -> & -> & ->); [|done..].
    apply kernel_multiply_ok in HV as [_ HV]. rewrite cast_dtype in HV.
    rewrite !length_graph_push.
    split; [done|]. split; [lia|]. split; [lia|].
    split; [apply Hnone; lia|].
    exists V. split; [|done].
    apply tensor_at_push_at. rewrite !length_graph_push. lia.
Qed.

Lemma accuracy_success_result_witness :
  length (graph (accuracy 0 1 2 batch_world).2) = 3 + 6
  ∧ tensor_at batch_world 8 = None
  ∧ ∃ V, tensor_at (accuracy 0 1 2 batch_world).2 8 = Some V
         ∧ Tensors.dtype V = DT_FLOAT32.
Proof.
  destruct (accuracy_success_result batch_world 0 1 2
              (mkTensor [2] (BInt32 [1; 0]%Z))
              (mkTensor [2; 3] (BFloat32 [f32_0_1; f32_0_7; f32_0_2;
                                          f32_0_2; f32_0_1; f32_0_7]))
              (mkTensor [2] (BFloat32 [Float32.one; f32_0_2]))
              8 2 (accuracy 0 1 2 batch_world).2
              eq_refl eq_refl eq_refl eq_refl)
    as (_ & Hlen & _ & Hnew & Hvalue).
  split; [exact Hlen|]. split; [exact Hnew|exact Hvalue].
Defined.

(** ** [compute] around [accuracy] *)

Lemma tensor_at_same_graph σ1 σ2 r :
  graph σ1 = graph σ2 → tensor_at σ1 r = tensor_at σ2 r.
Proof. unfold tensor_at. by intros ->. Qed.

(** X8. [compute] of a metric that wraps [accuracy], on targets,
    predictions and weights of one shape, with targets and predictions of
    one dtype, [float32] weights and a bound accumulator. It succeeds. The
    graph gets three tensors, the last of which holds the weighted matches.
    The accumulator is told to average that tensor with the weights tensor
    of the caller, under the scope that was opened; its sums and weights
    are as before, and no other accumulator is touched. *)
Theorem compute_accuracy_declares self t p w mc uc scope σ T P W matches ws a :
  _func self = accuracy →
  averages σ !! _avg self = Some a →
  tensor_at σ t = Some T → tensor_at σ p = Some P → tensor_at σ w = Some W →
  Tensors.wf T → Tensors.wf P → Tensors.wf W →
  shape P = shape T → shape W = shape T →
  elementwise_equal (buf T) (buf P) = Some matches →
  buf W = BFloat32 ws →
  ∃ σ',
    StreamingMetric.compute self t p w mc uc scope σ = (Ok tt, σ')
    ∧ length (graph σ') = length (graph σ) + 3
    ∧ tensor_at σ' (length (graph σ) + 2)
      = Some (mkTensor (shape T) (BFloat32 (weighted_matches matches ws)))
    ∧ averages σ' !! _avg self
      = Some (mkAverage (avg_state a)
                (Some (mkDecl
                         (tf.scope_join (var_scope σ)
                            (str_or scope (_name self)))
                         (length (graph σ) + 2) w)))
    ∧ ∀ b, b ≠ _avg self → averages σ' !! b = averages σ !! b.
Proof.
  intros Hfunc Ha Ht Hp Hw HT HP HW HsP HsW Heq Hbuf.
  set (n := tf.scope_join (var_scope σ) (str_or scope (_name self))).
  assert (Hlen : length matches = Shape.numel (shape T)).
  { apply (elementwise_equal_length _ _ _ _ Heq HT).
    unfold Tensors.wf in HP. by rewrite HP, HsP. }
  destruct (compare_labels_ok (set_var_scope n σ) t p w T P W _ _ Ht Hp Hw
              (kernel_equal_same_shape _ _ _ HsP HT HP Heq)
              (kernel_multiply_same_shape _ _ ws W HsW Hbuf Hlen HW))
    as [Hrun Hat].
  assert (Hacc : accuracy t p w (set_var_scope n σ)
                 = compare_labels t p w (set_var_scope n σ)).
  { rewrite (accuracy_run (set_var_scope n σ) _ _ _ _ _ _ Ht Hp Hw).
    unfold Tensors.ndims. by rewrite HsP, Nat.ltb_irrefl. }
  eexists. split.
  - apply compute_after_block. rewrite compute_scope_block.
    fold n. simpl. rewrite Hfunc, Hacc, Hrun. reflexivity.
  - simpl. split; [|split; [|split]].
    + rewrite !length_app. simpl. lia.
    + rewrite <- Hat. by apply tensor_at_same_graph.
    + rewrite list_lookup_alter_eq. by rewrite Ha.
    + intros b Hb. by rewrite list_lookup_alter_ne.
Qed.

Lemma compute_accuracy_declares_witness :
  ∃ σ',
    StreamingMetric.compute accuracy_metric 0 1 2
      (Some ["metrics"]%string) None (Some "eval"%string) metric_world
    = (Ok tt, σ')
    ∧ length (graph σ') = 3 + 3
    ∧ tensor_at σ' 5
      = Some (mkTensor [3]
                (BFloat32 [Float32.one; Float32.one; Float32.zero]))
    ∧ averages σ' !! 0
      = Some (mkAverage streaming.zero_state (Some (mkDecl "eval" 5 2))).
Proof.
  destruct (compute_accuracy_declares accuracy_metric 0 1 2
              (Some ["metrics"]%string) None (Some "eval"%string)
              metric_world
              (mkTensor [3] (BInt32 [0; 1; 2]%Z))
              (mkTensor [3] (BInt32 [0; 1; 1]%Z))
              (mkTensor [3] (f32_ones 3))
              [true; true; false]
              [Float32.one; Float32.one; Float32.one]
              (mkAverage streaming.zero_state None)
              eq_refl eq_refl eq_refl eq_refl eq_refl eq_refl eq_refl
              eq_refl eq_refl eq_refl eq_refl eq_refl)
    as (σ' & Hrun & Hlen & Hvalue & Havg & _).
  exists σ'. split; [exact Hrun|]. split; [exact Hlen|].
  split; [exact Hvalue|exact Havg].
Defined.

(** ** What a call returns is what was published *)

Lemma occurrences_elem key keys :
  key ∈ default [] keys → ∃ k, occurrences key keys = S k.
Proof.
  unfold occurrences. intros Hin.
  assert (Hfilter : key ∈ filter (λ k, k = key) (default [] keys)).
  { by apply list_elem_of_filter. }
  destruct (filter (λ k, k = key) (default [] keys)) as [|x l].
  - by apply not_elem_of_nil in Hfilter.
  - by exists (length l).
Qed.

(** X9. After a call of the adapter that returns, the value handle it
    returned is in every collection named in [metrics_collections] and the
    update handle it returned is in every collection named in
    [updates_collections], for every scoring function. *)
Theorem call_returns_what_it_published self t p w mc uc scope σ hv hu σ' :
  StreamingMetric.__call__ self t p w mc uc scope σ = (Ok (hv, hu), σ') →
  (∀ key, key ∈ default [] mc →
          hv ∈ utils.get_collection (collections σ') key)
  ∧ (∀ key, key ∈ default [] uc →
            hu ∈ utils.get_collection (collections σ') key).
Proof.
  unfold StreamingMetric.__call__. rewrite bind_run.
  destruct (StreamingMetric.compute self t p w mc uc scope σ)
    as [[[]|e] σ2] eqn:Hcompute; [|done].
  intros [= <- <- <-].
  destruct (tf.variable_scope (str_or scope (_name self))
              (StreamingMetric.scoped_body self t p w) σ)
    as [[[]|e] σb] eqn:Hblock.
  - rewrite (compute_after_block _ _ _ _ mc uc _ _ _ Hblock) in Hcompute.
    injection Hcompute as <-. simpl.
    split; intros key Hkey; rewrite !get_collection_publish;
      apply occurrences_elem in Hkey as [k ->]; simpl;
      rewrite !elem_of_app; [left; right|right]; by left.
  - by rewrite (compute_block_raises _ _ _ _ mc uc _ _ _ _ Hblock)
      in Hcompute.
Qed.

Lemma call_returns_what_it_published_witness :
  mkHandle 0 V_value
  ∈ utils.get_collection
      (collections
         (StreamingMetric.__call__ accuracy_metric 0 1 2
            (Some ["metrics"; "eval"]%string) (Some ["updates"]%string)
            None metric_world).2) "metrics"
  ∧ mkHandle 0 V_update_op
    ∈ utils.get_collection
        (collections
           (StreamingMetric.__call__ accuracy_metric 0 1 2
              (Some ["metrics"; "eval"]%string) (Some ["updates"]%string)
              None metric_world).2) "updates".
Proof.
  destruct (call_returns_what_it_published accuracy_metric 0 1 2
              (Some ["metrics"; "eval"]%string) (Some ["updates"]%string)
              None metric_world (mkHandle 0 V_value) (mkHandle 0 V_update_op)
              (StreamingMetric.__call__ accuracy_metric 0 1 2
                 (Some ["metrics"; "eval"]%string) (Some ["updates"]%string)
                 None metric_world).2 eq_refl)
    as [Hvalue Hupdate].
  split.
  - apply Hvalue. simpl. apply list_elem_of_here.
  - apply Hupdate. simpl. apply list_elem_of_here.
Defined.
